(** * DShot RMT encoder: a shallow embedding of [dshot_rmt_encoder.c]

    The development follows the source file top to bottom:

    - [Frame]: the 16-bit frame union and [make_dshot_frame];
    - [Rmt]: the part of the ESP-IDF RMT encoder interface the file uses;
    - [Encoder]: the encoder object, [rmt_encode_dshot_esc] and
      [rmt_dshot_encoder_reset], over abstract sub-encoders;
    - [Timing]: the tick computations of [rmt_new_dshot_esc_encoder], in
      IEEE 754 binary32 and binary64 arithmetic;
    - [Construction]: [rmt_new_dshot_esc_encoder] with its clean-up path,
      and [rmt_del_dshot_encoder].

    Integers of fixed width are values of [Z] with the truncation of each
    store written out.  The three function pointers stored in
    [dshot_encoder->base] are the three methods themselves. *)

From Stdlib Require Import ZArith List Bool Lia.
From Stdlib Require Import Floats.SpecFloat.
Import ListNotations.

Local Open Scope Z_scope.

(** ** Fixed-width helpers *)

Definition to_uint8 (z : Z) : Z := Z.land z 0xFF.
Definition to_uint32 (z : Z) : Z := z mod 2 ^ 32.

(** [size_t] is 32 bits wide on the ESP32 targets. *)
Definition size_t := Z.
Definition size_add (a b : size_t) : size_t := to_uint32 (a + b).

(** The integers [0 .. n-1], used to check a property on a finite range. *)
Definition Zrange (n : nat) : list Z := map Z.of_nat (seq 0 n).

(** ** The DShot frame *)

Module Frame.

(** [dshot_frame_t] is a union of a [uint16_t val] with three bit-fields.
    The little-endian ABI of the target allocates bit-fields from the least
    significant bit: [crc] is bits 0-3, [telemetry] bit 4 and [throttle]
    bits 5-15 of [val].  A frame is represented by its [val]. *)
Definition dshot_frame_t := Z.

Definition frame_crc (frame : dshot_frame_t) : Z := Z.land frame 0xF.
Definition frame_telemetry (frame : dshot_frame_t) : Z :=
  Z.land (Z.shiftr frame 4) 0x1.
Definition frame_throttle (frame : dshot_frame_t) : Z :=
  Z.land (Z.shiftr frame 5) 0x7FF.

(** A store to a bit-field keeps the low bits of the stored value and
    leaves the other fields alone. *)
Definition set_crc (frame : dshot_frame_t) (v : Z) : dshot_frame_t :=
  Z.lor (Z.land frame 0xFFF0) (Z.land v 0xF).
Definition set_telemetry (frame : dshot_frame_t) (v : Z) : dshot_frame_t :=
  Z.lor (Z.land frame 0xFFEF) (Z.shiftl (Z.land v 0x1) 4).
Definition set_throttle (frame : dshot_frame_t) (v : Z) : dshot_frame_t :=
  Z.lor (Z.land frame 0x001F) (Z.shiftl (Z.land v 0x7FF) 5).

(** The checksum statements of [make_dshot_frame]: the value kept in the
    local [uint8_t crc] just before it is shifted into the [crc] field. *)
Definition crc_byte (val : Z) (bidirectional : bool) : Z :=
  let crc := to_uint8 (Z.lxor (Z.lxor val (Z.shiftr val 4)) (Z.shiftr val 8)) in
  let crc := if bidirectional then to_uint8 (Z.lnot crc) else crc in
  Z.land crc 0xF0.

(** [make_dshot_frame] up to and including the store to [frame->crc]. *)
Definition fill_dshot_frame (frame : dshot_frame_t) (throttle : Z)
    (telemetry bidirectional : bool) : dshot_frame_t :=
  let frame := set_throttle frame throttle in
  let frame := set_telemetry frame (Z.b2z telemetry) in
  let val := frame in
  let crc := crc_byte val bidirectional in
  set_crc frame (Z.shiftr crc 4).

(** The last two statements: exchange the two bytes of [val]. *)
Definition swap_bytes (val : Z) : Z :=
  Z.lor (Z.shiftl (Z.land val 0xFF) 8) (Z.shiftr (Z.land val 0xFF00) 8).

Definition make_dshot_frame (frame : dshot_frame_t) (throttle : Z)
    (telemetry bidirectional : bool) : dshot_frame_t :=
  let frame := fill_dshot_frame frame throttle telemetry bidirectional in
  let val := frame in
  swap_bytes val.

(** The two bytes of the frame in memory order, as handed to the bytes
    encoder through [&frame, sizeof(frame)]. *)
Definition frame_bytes (frame : dshot_frame_t) : list Z :=
  [Z.land frame 0xFF; Z.land (Z.shiftr frame 8) 0xFF].

(** *** The checksum as the specification words it

    The 12-bit payload is the throttle followed by the telemetry bit; the
    checksum is the low nibble of the payload folded by XOR, inverted first
    in bidirectional mode. *)
Definition payload (throttle : Z) (telemetry : bool) : Z :=
  Z.lor (Z.shiftl throttle 1) (Z.b2z telemetry).

Definition reference_crc (throttle : Z) (telemetry bidirectional : bool) : Z :=
  let p := payload throttle telemetry in
  let folded := Z.lxor (Z.lxor p (Z.shiftr p 4)) (Z.shiftr p 8) in
  Z.land (if bidirectional then Z.lnot folded else folded) 0xF.

(** Decoding a wire-order frame: undo the byte exchange and read the three
    fields. *)
Definition decode_wire (wire : Z) : Z * Z * Z :=
  let frame := swap_bytes wire in
  (frame_throttle frame, frame_telemetry frame, frame_crc frame).

End Frame.

(** ** The ESP-IDF interface used by the encoder

    These declarations come from the ESP-IDF headers the source includes
    ([esp_err.h], [hal/rmt_types.h], [driver/rmt_encoder.h]). *)

Module Rmt.

Definition esp_err_t := Z.
Definition ESP_OK : esp_err_t := 0.
Definition ESP_ERR_NO_MEM : esp_err_t := 0x101.
Definition ESP_ERR_INVALID_ARG : esp_err_t := 0x102.

(** [rmt_encode_state_t] is a bit set. *)
Definition rmt_encode_state_t := Z.
Definition RMT_ENCODING_RESET : rmt_encode_state_t := 0.
Definition RMT_ENCODING_COMPLETE : rmt_encode_state_t := 1.
Definition RMT_ENCODING_MEM_FULL : rmt_encode_state_t := 2.

(** The C test [s & flag]. *)
Definition has_flag (s flag : rmt_encode_state_t) : bool :=
  negb (Z.land s flag =? 0).

(** [rmt_symbol_word_t]: two (duration, level) halves; each duration is a
    15-bit field and each level a 1-bit field of one 32-bit word. *)
Definition DURATION_BITS : Z := 15.

Record rmt_symbol_word_t := {
  duration0 : Z;
  level0 : Z;
  duration1 : Z;
  level1 : Z }.

(** A designated initialiser of a symbol word: every store truncates to the
    width of its field. *)
Definition symbol_word (l0 d0 l1 d1 : Z) : rmt_symbol_word_t :=
  {| duration0 := d0 mod 2 ^ DURATION_BITS;
     level0 := l0 mod 2;
     duration1 := d1 mod 2 ^ DURATION_BITS;
     level1 := l1 mod 2 |}.

Definition symbol_duration (s : rmt_symbol_word_t) : Z :=
  duration0 s + duration1 s.

Record rmt_bytes_encoder_config_t := {
  bit0 : rmt_symbol_word_t;
  bit1 : rmt_symbol_word_t;
  msb_first : bool }.

(** An encoder handle is a pointer; [NULL] is address 0. *)
Definition rmt_encoder_handle_t := Z.
Definition NULL : rmt_encoder_handle_t := 0.

(** What a sub-encoder receives through [(const void *data, size_t size)]:
    the bytes encoder reads bytes, the copy encoder reads symbol words. *)
Inductive rmt_data :=
| DataBytes (bytes : list Z)
| DataSymbols (symbols : list rmt_symbol_word_t).

(** Calls that leave the DShot encoder, in program order. *)
Inductive event :=
| EvEncode (h : rmt_encoder_handle_t) (data : rmt_data)
| EvReset (h : rmt_encoder_handle_t).

(** The sub-encoders are reached through their handles only.  [W] is all the
    state behind the interface: the channel memory and the private progress
    of every sub-encoder.  [rmt_encode h w data] is the call
    [h->encode(h, channel, data, size, &session_state)]: it returns the new
    state, the number of symbols written and the value stored in
    [session_state]. *)
Class RmtPlatform := {
  W : Type;
  rmt_encode :
    rmt_encoder_handle_t -> W -> rmt_data -> W * (size_t * rmt_encode_state_t);
  rmt_encoder_reset : rmt_encoder_handle_t -> W -> W }.

End Rmt.

Import Frame Rmt.

(** ** The encoder object and its three methods *)

Module Encoder.

(** Modelled from the spec: [dshot_rmt_throttle_t] is declared in
    [dshot_rmt_encoder.h], a header outside the verified source file.  The
    per-frame input is a 16-bit throttle and a telemetry-request flag. *)
Record dshot_rmt_throttle_t := {
  throttle : Z;
  telemetry_req : bool }.

Record dshot_rmt_encoder_t := {
  bytes_encoder : rmt_encoder_handle_t;
  copy_encoder : rmt_encoder_handle_t;
  dshot_delay_symbol : rmt_symbol_word_t;
  state : Z;
  bidirectional : bool }.

Definition set_state (e : dshot_rmt_encoder_t) (s : Z) : dshot_rmt_encoder_t :=
  {| bytes_encoder := bytes_encoder e;
     copy_encoder := copy_encoder e;
     dshot_delay_symbol := dshot_delay_symbol e;
     state := s;
     bidirectional := bidirectional e |}.

(** The data handed to the bytes encoder in the frame phase, [&frame] with
    [sizeof(frame)], and to the copy encoder in the gap phase,
    [&dshot_encoder->dshot_delay_symbol] with [sizeof(rmt_symbol_word_t)]. *)
Definition frame_data (e : dshot_rmt_encoder_t) (d : dshot_rmt_throttle_t)
  : rmt_data :=
  DataBytes
    (frame_bytes
       (make_dshot_frame 0 (throttle d) (telemetry_req d) (bidirectional e))).

Definition delay_data (e : dshot_rmt_encoder_t) : rmt_data :=
  DataSymbols [dshot_delay_symbol e].

Section Methods.
Context {P : RmtPlatform}.

(** The state behind the sub-encoder interface together with the calls made
    so far. *)
Record machine := {
  world : W;
  trace : list event }.

(** Computations that call the sub-encoders. *)
Definition M (A : Type) : Type := machine -> A * machine.

Definition ret {A : Type} (a : A) : M A := fun m => (a, m).

Definition bind {A B : Type} (c : M A) (k : A -> M B) : M B :=
  fun m => let (a, m') := c m in k a m'.

Notation "' pat <- c ;; k" := (bind c (fun x => let pat := x in k))
  (at level 61, pat pattern, c at next level, right associativity).
Notation "c ;; k" := (bind c (fun _ => k))
  (at level 61, right associativity).

(** [h->encode(h, channel, data, size, &session_state)] *)
Definition call_encode (h : rmt_encoder_handle_t) (data : rmt_data)
  : M (size_t * rmt_encode_state_t) :=
  fun m =>
    let (w', r) := rmt_encode h (world m) data in
    (r, {| world := w'; trace := trace m ++ [EvEncode h data] |}).

(** [rmt_encoder_reset(h)] *)
Definition call_reset (h : rmt_encoder_handle_t) : M unit :=
  fun m =>
    (tt, {| world := rmt_encoder_reset h (world m);
            trace := trace m ++ [EvReset h] |}).

(** What one call of the encode method leaves behind: the encoder object,
    the returned symbol count and the value stored in [*ret_state]. *)
Record encode_result := {
  encoder : dshot_rmt_encoder_t;
  encoded_symbols : size_t;
  ret_state : rmt_encode_state_t }.

(** [case 1] of the switch, entered either directly or by falling through
    from [case 0] with the locals [encoded_symbols] and [state]. *)
Definition send_post_delay (e : dshot_rmt_encoder_t) (encoded_symbols : size_t)
    (state : rmt_encode_state_t) : M encode_result :=
  ' (n, session_state) <-
      call_encode (copy_encoder e) (DataSymbols [dshot_delay_symbol e]) ;;
  let encoded_symbols := size_add encoded_symbols n in
  let complete := has_flag session_state RMT_ENCODING_COMPLETE in
  let state := if complete then Z.lor state RMT_ENCODING_COMPLETE else state in
  let e := if complete then set_state e RMT_ENCODING_RESET else e in
  let state :=
    if has_flag session_state RMT_ENCODING_MEM_FULL
    then Z.lor state RMT_ENCODING_MEM_FULL else state in
  ret {| encoder := e; encoded_symbols := encoded_symbols; ret_state := state |}.

Definition rmt_encode_dshot_esc (e : dshot_rmt_encoder_t)
    (primary_data : dshot_rmt_throttle_t) : M encode_result :=
  let state := RMT_ENCODING_RESET in
  let encoded_symbols := 0 in
  let frame :=
    make_dshot_frame 0 (throttle primary_data) (telemetry_req primary_data)
      (bidirectional e) in
  match Encoder.state e with
  | 0 =>
      ' (n, session_state) <-
          call_encode (bytes_encoder e) (DataBytes (frame_bytes frame)) ;;
      let encoded_symbols := size_add encoded_symbols n in
      let e :=
        if has_flag session_state RMT_ENCODING_COMPLETE
        then set_state e 1 else e in
      if has_flag session_state RMT_ENCODING_MEM_FULL
      then ret {| encoder := e; encoded_symbols := encoded_symbols;
                  ret_state := Z.lor state RMT_ENCODING_MEM_FULL |}
      else send_post_delay e encoded_symbols state
  | 1 => send_post_delay e encoded_symbols state
  | _ => ret {| encoder := e; encoded_symbols := encoded_symbols;
                ret_state := state |}
  end.

Definition rmt_dshot_encoder_reset (e : dshot_rmt_encoder_t)
  : M (dshot_rmt_encoder_t * esp_err_t) :=
  call_reset (bytes_encoder e) ;;
  call_reset (copy_encoder e) ;;
  ret (set_state e RMT_ENCODING_RESET, ESP_OK).

(** What happens to a constructed encoder: encode and reset calls in any
    order, and between them the transmit channel draining its memory. *)
Inductive request :=
| ReqEncode (primary_data : dshot_rmt_throttle_t)
| ReqReset
| ChannelStep (step : W -> W).

Definition serve (e : dshot_rmt_encoder_t) (r : request) (m : machine)
  : dshot_rmt_encoder_t * machine :=
  match r with
  | ReqEncode d =>
      let (res, m') := rmt_encode_dshot_esc e d m in (encoder res, m')
  | ReqReset =>
      let (res, m') := rmt_dshot_encoder_reset e m in (fst res, m')
  | ChannelStep step => (e, {| world := step (world m); trace := trace m |})
  end.

Fixpoint serve_all (e : dshot_rmt_encoder_t) (rs : list request) (m : machine)
  : dshot_rmt_encoder_t * machine :=
  match rs with
  | [] => (e, m)
  | r :: rs' => let (e', m') := serve e r m in serve_all e' rs' m'
  end.

End Methods.

End Encoder.

Import Encoder.

(** ** Construction: configuration and tick arithmetic *)

Module Config.

(** Modelled from the spec: [dshot_rmt_encoder_config_t] is declared in
    [dshot_rmt_encoder.h], a header outside the verified source file.  The
    construction input is three [uint32_t] values and the bidirectional
    flag. *)
Record dshot_rmt_encoder_config_t := {
  resolution : Z;
  baud_rate : Z;
  post_delay_us : Z;
  bidirectional : bool }.

End Config.

Module Timing.

(** [float] is IEEE 754 binary32 and [double] binary64; both are values of
    [spec_float], and every operation names its format. *)
Definition float_of_unsigned (n : Z) : spec_float :=
  binary_normalize 24 128 n 0 false.

Definition double_of_unsigned (n : Z) : spec_float :=
  binary_normalize 53 1024 n 0 false.

(** Promotion of a [float] operand to [double] is exact. *)
Definition double_of_float (x : spec_float) : spec_float :=
  match x with
  | S754_finite s m e => binary_round 53 1024 s m e
  | _ => x
  end.

(** The [double] denoted by the decimal constant [num / den]: the quotient
    rounded once to nearest. *)
Definition double_constant (num den : Z) : spec_float :=
  SFdiv 53 1024 (double_of_unsigned num) (double_of_unsigned den).

(** The integer part of a finite value, rounding toward zero. *)
Definition integer_part (x : spec_float) : option Z :=
  match x with
  | S754_zero _ => Some 0
  | S754_finite s m e =>
      let magnitude :=
        if 0 <=? e then Z.shiftl (Zpos m) e else Z.shiftr (Zpos m) (- e) in
      Some (if s then - magnitude else magnitude)
  | S754_infinity _ | S754_nan => None
  end.

(** C leaves the conversion of a floating value to [unsigned] undefined when
    the integer part does not fit; the target then yields some 32-bit
    pattern, which is a parameter here. *)
Class Target := {
  unsigned_out_of_range : spec_float -> Z }.

Section Ticks.
Context {T : Target}.

Definition unsigned_of_fp (x : spec_float) : Z :=
  match integer_part x with
  | Some z =>
      if (0 <=? z) && (z <? 2 ^ 32) then z
      else to_uint32 (unsigned_out_of_range x)
  | None => to_uint32 (unsigned_out_of_range x)
  end.

(** [uint32_t delay_ticks = config->resolution / 1e6 * config->post_delay_us] *)
Definition delay_ticks (config : Config.dshot_rmt_encoder_config_t) : Z :=
  unsigned_of_fp
    (SFmul 53 1024
       (SFdiv 53 1024 (double_of_unsigned (Config.resolution config))
          (double_constant 1000000 1))
       (double_of_unsigned (Config.post_delay_us config))).

Definition make_delay_symbol (config : Config.dshot_rmt_encoder_config_t)
  : rmt_symbol_word_t :=
  let delay_ticks := delay_ticks config in
  symbol_word 0 (delay_ticks / 2) 0 (delay_ticks / 2).

(** [float period_ticks = (float)config->resolution / config->baud_rate] *)
Definition period_ticks (config : Config.dshot_rmt_encoder_config_t)
  : spec_float :=
  SFdiv 24 128 (float_of_unsigned (Config.resolution config))
    (float_of_unsigned (Config.baud_rate config)).

(** [(unsigned int)(period_ticks * duty)] with a [double] constant [duty] *)
Definition high_ticks (period duty : spec_float) : Z :=
  unsigned_of_fp (SFmul 53 1024 (double_of_float period) duty).

(** [(unsigned int)(period_ticks - high)] with an [unsigned int] [high] *)
Definition low_ticks (period : spec_float) (high : Z) : Z :=
  unsigned_of_fp (SFsub 24 128 period (float_of_unsigned high)).

Definition t1h_ticks (config : Config.dshot_rmt_encoder_config_t) : Z :=
  high_ticks (period_ticks config) (double_constant 7485 10000).
Definition t1l_ticks (config : Config.dshot_rmt_encoder_config_t) : Z :=
  low_ticks (period_ticks config) (t1h_ticks config).
Definition t0h_ticks (config : Config.dshot_rmt_encoder_config_t) : Z :=
  high_ticks (period_ticks config) (double_constant 37425 100000).
Definition t0l_ticks (config : Config.dshot_rmt_encoder_config_t) : Z :=
  low_ticks (period_ticks config) (t0h_ticks config).

Definition make_bytes_encoder_config
    (config : Config.dshot_rmt_encoder_config_t) : rmt_bytes_encoder_config_t :=
  {| bit0 := symbol_word 1 (t0h_ticks config) 0 (t0l_ticks config);
     bit1 := symbol_word 1 (t1h_ticks config) 0 (t1l_ticks config);
     msb_first := true |}.

End Ticks.

End Timing.

Import Timing.

(** ** Construction and destruction *)

Module Construction.

(** The blocks currently allocated, most recent first. *)
Definition heap := list Z.

Definition heap_alloc (a : Z) (h : heap) : heap := a :: h.

Fixpoint heap_free (a : Z) (h : heap) : heap :=
  match h with
  | [] => []
  | b :: h' => if a =? b then h' else b :: heap_free a h'
  end.

(** What the allocator and the two sub-encoder constructors answer during one
    call of [rmt_new_dshot_esc_encoder].  [rmt_alloc_encoder_mem] returns a
    zero-filled block or [NULL]; a sub-encoder constructor returns a status
    and, when the status is [ESP_OK], has stored the handle of a new
    encoder. *)
Record answers := {
  encoder_mem : option positive;
  new_bytes_encoder : esp_err_t * positive;
  new_copy_encoder : esp_err_t * positive }.

(** The block returned by [rmt_alloc_encoder_mem], before any store. *)
Definition zeroed : dshot_rmt_encoder_t :=
  {| bytes_encoder := NULL;
     copy_encoder := NULL;
     dshot_delay_symbol :=
       {| duration0 := 0; level0 := 0; duration1 := 0; level1 := 0 |};
     state := 0;
     bidirectional := false |}.

Definition set_bytes_encoder (e : dshot_rmt_encoder_t) (h : rmt_encoder_handle_t)
  : dshot_rmt_encoder_t :=
  {| bytes_encoder := h;
     copy_encoder := copy_encoder e;
     dshot_delay_symbol := dshot_delay_symbol e;
     state := state e;
     bidirectional := Encoder.bidirectional e |}.

Definition set_copy_encoder (e : dshot_rmt_encoder_t) (h : rmt_encoder_handle_t)
  : dshot_rmt_encoder_t :=
  {| bytes_encoder := bytes_encoder e;
     copy_encoder := h;
     dshot_delay_symbol := dshot_delay_symbol e;
     state := state e;
     bidirectional := Encoder.bidirectional e |}.

Definition set_delay_and_mode (e : dshot_rmt_encoder_t)
    (s : rmt_symbol_word_t) (b : bool) : dshot_rmt_encoder_t :=
  {| bytes_encoder := bytes_encoder e;
     copy_encoder := copy_encoder e;
     dshot_delay_symbol := s;
     state := state e;
     bidirectional := b |}.

(** [rmt_del_encoder(h)] releases the sub-encoder [h]. *)
Definition rmt_del_encoder (h : rmt_encoder_handle_t) (live : heap) : heap :=
  heap_free h live.

(** What one call of the constructor leaves behind: the returned status, the
    content of the caller's cell [*ret_encoder] ([None] when the pointer is
    null), the encoder object when one is handed over, the timing table given
    to [rmt_new_bytes_encoder] when that call is reached, and the heap. *)
Record construction := {
  status : esp_err_t;
  ret_encoder : option rmt_encoder_handle_t;
  object : option dshot_rmt_encoder_t;
  bytes_encoder_config : option rmt_bytes_encoder_config_t;
  live : heap }.

(** The code after the [err] label: [dshot_encoder] is [None] for a null
    pointer, else the address of the block and its content. *)
Definition err_exit (ret : esp_err_t)
    (dshot_encoder : option (Z * dshot_rmt_encoder_t))
    (ret_encoder : option rmt_encoder_handle_t)
    (bytes_encoder_config : option rmt_bytes_encoder_config_t)
    (live : heap) : construction :=
  let live :=
    match dshot_encoder with
    | Some (addr, e) =>
        let live :=
          if bytes_encoder e =? NULL then live
          else rmt_del_encoder (bytes_encoder e) live in
        let live :=
          if copy_encoder e =? NULL then live
          else rmt_del_encoder (copy_encoder e) live in
        heap_free addr live
    | None => live
    end in
  {| status := ret; ret_encoder := ret_encoder; object := None;
     bytes_encoder_config := bytes_encoder_config; live := live |}.

Section New.
Context {T : Target}.

Definition rmt_new_dshot_esc_encoder (env : answers)
    (config : option Config.dshot_rmt_encoder_config_t)
    (ret_encoder : option rmt_encoder_handle_t) (live : heap) : construction :=
  match config, ret_encoder with
  | Some config, Some _ =>
      match encoder_mem env with
      | None => err_exit ESP_ERR_NO_MEM None ret_encoder None live
      | Some addr =>
          let addr := Zpos addr in
          let live := heap_alloc addr live in
          let e := zeroed in
          let e :=
            set_delay_and_mode e (make_delay_symbol config)
              (Config.bidirectional config) in
          let bytes_encoder_config := make_bytes_encoder_config config in
          let (rc, h) := new_bytes_encoder env in
          if rc =? ESP_OK then
            let e := set_bytes_encoder e (Zpos h) in
            let live := heap_alloc (Zpos h) live in
            let (rc, h) := new_copy_encoder env in
            if rc =? ESP_OK then
              let e := set_copy_encoder e (Zpos h) in
              let live := heap_alloc (Zpos h) live in
              {| status := ESP_OK; ret_encoder := Some addr; object := Some e;
                 bytes_encoder_config := Some bytes_encoder_config;
                 live := live |}
            else
              err_exit rc (Some (addr, e)) ret_encoder
                (Some bytes_encoder_config) live
          else
            err_exit rc (Some (addr, e)) ret_encoder
              (Some bytes_encoder_config) live
      end
  | _, _ => err_exit ESP_ERR_INVALID_ARG None ret_encoder None live
  end.

End New.

(** [rmt_del_dshot_encoder] on the object stored at [addr]. *)
Definition rmt_del_dshot_encoder (addr : Z) (e : dshot_rmt_encoder_t)
    (live : heap) : esp_err_t * heap :=
  let live := rmt_del_encoder (bytes_encoder e) live in
  let live := rmt_del_encoder (copy_encoder e) live in
  (ESP_OK, heap_free addr live).

End Construction.

Import Construction.

(** ** Concrete instances for running the model

    A pair of sub-encoders over a channel memory with a number of free symbol
    slots.  A sub-encoder writes one symbol per payload bit, or one per
    symbol word, as long as slots are free.  [eager_full] selects whether it
    reports [RMT_ENCODING_MEM_FULL] together with
    [RMT_ENCODING_COMPLETE] when its last symbol took the last slot. *)

Module Bench.

Record channel := {
  free : Z;
  eager_full : bool }.

Definition symbols_of (data : rmt_data) : Z :=
  match data with
  | DataBytes bytes => 8 * Z.of_nat (length bytes)
  | DataSymbols symbols => Z.of_nat (length symbols)
  end.

Definition bench_encode (h : rmt_encoder_handle_t) (c : channel)
    (data : rmt_data) : channel * (size_t * rmt_encode_state_t) :=
  let need := symbols_of data in
  if need <=? free c then
    let left := free c - need in
    ({| free := left; eager_full := eager_full c |},
     (need,
      if eager_full c && (left =? 0)
      then Z.lor RMT_ENCODING_COMPLETE RMT_ENCODING_MEM_FULL
      else RMT_ENCODING_COMPLETE))
  else
    ({| free := 0; eager_full := eager_full c |},
     (free c, RMT_ENCODING_MEM_FULL)).

Definition bench_platform : RmtPlatform :=
  {| W := channel;
     rmt_encode := bench_encode;
     rmt_encoder_reset := fun _ c => c |}.

(** A target on which an out-of-range conversion yields zero. *)
Definition bench_target : Target :=
  {| unsigned_out_of_range := fun _ => 0 |}.

(** DShot600 on a 40 MHz tick, with a 50 microsecond gap. *)
Definition dshot600 : Config.dshot_rmt_encoder_config_t :=
  {| Config.resolution := 40000000;
     Config.baud_rate := 600000;
     Config.post_delay_us := 50;
     Config.bidirectional := false |}.

(** The same tick with a two millisecond gap. *)
Definition long_gap : Config.dshot_rmt_encoder_config_t :=
  {| Config.resolution := 40000000;
     Config.baud_rate := 600000;
     Config.post_delay_us := 2000;
     Config.bidirectional := false |}.

(** Every allocation succeeds. *)
Definition plentiful : answers :=
  {| encoder_mem := Some 4096%positive;
     new_bytes_encoder := (ESP_OK, 4160%positive);
     new_copy_encoder := (ESP_OK, 4224%positive) |}.

(** The copy encoder cannot be allocated. *)
Definition copy_fails : answers :=
  {| encoder_mem := Some 4096%positive;
     new_bytes_encoder := (ESP_OK, 4160%positive);
     new_copy_encoder := (ESP_ERR_NO_MEM, 1%positive) |}.

(** The encoder object [plentiful] gives for [dshot600]. *)
Definition bench_encoder : dshot_rmt_encoder_t :=
  {| bytes_encoder := 4160;
     copy_encoder := 4224;
     dshot_delay_symbol :=
       {| duration0 := 1000; level0 := 0; duration1 := 1000; level1 := 0 |};
     state := 0;
     bidirectional := false |}.

Definition half_throttle : dshot_rmt_throttle_t :=
  {| throttle := 1046; telemetry_req := false |}.

Definition start (slots : Z) (eager : bool) : @machine bench_platform :=
  {| world := ({| free := slots; eager_full := eager |} : @W bench_platform);
     trace := [] |}.

End Bench.

Import Bench.

(** ** Vocabulary for the properties

    The receiving side of a frame: decode the wire value and compute the
    checksum again with the encoder's own statements. *)
Definition checksum_ok (bidirectional : bool) (wire : Z) : bool :=
  let '(t, tel, c) := decode_wire wire in
  frame_crc (fill_dshot_frame 0 t (tel =? 1) bidirectional) =? c.

(** The receiving side written from the wire format alone, with an exchange
    of its own: the byte at the lower address is sent first and is the high
    byte of the value received; the fields are bits 5-15, bit 4 and bits 0-3
    of that value.  Nothing here refers to the encoder's statements. *)
Definition exchange_bytes (wire : Z) : Z :=
  (wire mod 256) * 256 + (wire / 256) mod 256.

Definition read_wire (wire : Z) : Z * Z * Z :=
  let value := exchange_bytes wire in
  ((value / 32) mod 2048, (value / 16) mod 2, value mod 16).

(** A tick count given approximately: within one tick. *)
Definition about (ticks n : Z) : Prop := Z.abs (ticks - n) <= 1.

(** One bit of the wire value inverted on the line. *)
Definition flip_bit (wire i : Z) : Z := Z.lxor wire (Z.shiftl 1 i).

(** Two encoder objects that differ at most in their phase. *)
Definition same_configuration (e e' : dshot_rmt_encoder_t) : Prop :=
  bytes_encoder e' = bytes_encoder e
  /\ copy_encoder e' = copy_encoder e
  /\ dshot_delay_symbol e' = dshot_delay_symbol e
  /\ Encoder.bidirectional e' = Encoder.bidirectional e.

(** The calls encoder [e] is entitled to make: a two-byte frame to its bytes
    encoder, its own gap symbol to its copy encoder, a reset of either. *)
Definition own_call (e : dshot_rmt_encoder_t) (ev : event) : Prop :=
  match ev with
  | EvEncode h data =>
      (h = bytes_encoder e /\ exists d, data = frame_data e d)
      \/ (h = copy_encoder e /\ data = delay_data e)
  | EvReset h => h = bytes_encoder e \/ h = copy_encoder e
  end.

(** A bytes encoder that makes no progress and reports neither flag, beside
    the copy encoder of [bench_platform]. *)
Definition stalling_encode (h : rmt_encoder_handle_t) (c : channel)
    (data : rmt_data) : channel * (size_t * rmt_encode_state_t) :=
  match data with
  | DataBytes _ => (c, (0, RMT_ENCODING_RESET))
  | DataSymbols _ => bench_encode h c data
  end.

Definition stalling_platform : RmtPlatform :=
  {| W := channel;
     rmt_encode := stalling_encode;
     rmt_encoder_reset := fun _ c => c |}.

(** * Properties *)

(** ** Frame construction *)

Lemma Zrange_In (n : nat) (z : Z) : 0 <= z < Z.of_nat n -> In z (Zrange n).
Proof.
  intros Hz. unfold Zrange.
  replace z with (Z.of_nat (Z.to_nat z)) by lia.
  apply in_map, in_seq. lia.
Qed.

Lemma Zrange_forallb (P : Z -> bool) (n : nat) :
  forallb P (Zrange n) = true ->
  forall z, 0 <= z < Z.of_nat n -> P z = true.
Proof.
  intros Hall z Hz.
  rewrite forallb_forall in Hall. apply Hall, Zrange_In, Hz.
Qed.

Example frame_zero : make_dshot_frame 0 0 false false = 0.
Proof. reflexivity. Qed.

Example frame_1046 : fill_dshot_frame 0 1046 false false = 0x82C6.
Proof. reflexivity. Qed.

Example frame_1046_wire : make_dshot_frame 0 1046 false false = 0xC682.
Proof. reflexivity. Qed.

Example frame_1046_bidir : fill_dshot_frame 0 1046 false true = 0x82C9.
Proof. reflexivity. Qed.

Example bench_encoder_constructed :
  object (@rmt_new_dshot_esc_encoder bench_target plentiful (Some dshot600)
            (Some NULL) []) = Some bench_encoder.
Proof. vm_compute. reflexivity. Qed.

(** The byte exchange in arithmetic: masks are remainders, shifts are
    products and quotients, and the union of disjoint bytes is their sum. *)
Lemma low_byte (v : Z) : Z.land v 0xFF = v mod 256.
Proof. change 0xFF with (Z.ones 8). rewrite Z.land_ones by lia. reflexivity. Qed.

Lemma lor_shifted_byte (h l : Z) :
  0 <= l < 256 -> Z.lor (Z.shiftl h 8) l = h * 256 + l.
Proof.
  intros Hl.
  assert (Hdisj : Z.land (Z.shiftl h 8) l = 0).
  { apply Z.bits_inj'. intros i Hi. rewrite Z.land_spec, Z.bits_0.
    destruct (Z.ltb_spec i 8) as [Hlt | Hge].
    - rewrite Z.shiftl_spec_low by lia. reflexivity.
    - replace l with (l mod 2 ^ 8) by (apply Z.mod_small; lia).
      rewrite Z.mod_pow2_bits_high by lia. apply andb_false_r. }
  rewrite <- Z.lxor_lor by exact Hdisj.
  rewrite <- Z.add_nocarry_lxor by exact Hdisj.
  rewrite Z.shiftl_mul_pow2 by lia. reflexivity.
Qed.

Lemma swap_bytes_arith (v : Z) :
  0 <= v < 2 ^ 16 -> swap_bytes v = (v mod 256) * 256 + v / 256.
Proof.
  intros Hv. unfold swap_bytes.
  rewrite Z.shiftr_land. change (Z.shiftr 0xFF00 8) with 0xFF.
  rewrite !low_byte, Z.shiftr_div_pow2 by lia. change (2 ^ 8) with 256.
  assert (Hh : 0 <= v / 256 < 256).
  { split; [apply Z.div_pos; lia | apply Z.div_lt_upper_bound; lia]. }
  rewrite (Z.mod_small (v / 256)) by exact Hh.
  apply lor_shifted_byte. exact Hh.
Qed.

Lemma swapped_parts (h l : Z) :
  0 <= h < 256 -> 0 <= l < 256 ->
  (l * 256 + h) mod 256 = h /\ (l * 256 + h) / 256 = l.
Proof.
  intros Hh Hl. rewrite (Z.add_comm (l * 256) h).
  rewrite Z.mod_add, Z.div_add by lia.
  rewrite Z.mod_small, Z.div_small by lia. lia.
Qed.

(** Exchanging the two bytes twice gives back any 16-bit value. *)
Lemma swap_bytes_involutive (val : Z) :
  0 <= val < 2 ^ 16 -> swap_bytes (swap_bytes val) = val.
Proof.
  intros Hv.
  pose proof (Z.div_mod val 256 ltac:(lia)) as Hdm.
  pose proof (Z.mod_pos_bound val 256 ltac:(lia)) as Hl.
  assert (Hh : 0 <= val / 256 < 256).
  { split; [apply Z.div_pos; lia | apply Z.div_lt_upper_bound; lia]. }
  destruct (swapped_parts (val / 256) (val mod 256) Hh Hl) as [Hmod Hdiv].
  rewrite (swap_bytes_arith val Hv).
  rewrite swap_bytes_arith by lia.
  rewrite Hmod, Hdiv. lia.
Qed.

(** The bytes encoder receives the high byte of the frame first: the byte
    exchange puts it at the lower address. *)
Lemma frame_bytes_high_first (val : Z) :
  0 <= val < 2 ^ 16 ->
  frame_bytes (swap_bytes val) = [Z.shiftr val 8; Z.land val 0xFF].
Proof.
  intros Hv.
  pose proof (Z.mod_pos_bound val 256 ltac:(lia)) as Hl.
  assert (Hh : 0 <= val / 256 < 256).
  { split; [apply Z.div_pos; lia | apply Z.div_lt_upper_bound; lia]. }
  destruct (swapped_parts (val / 256) (val mod 256) Hh Hl) as [Hmod Hdiv].
  unfold frame_bytes. rewrite (swap_bytes_arith val Hv), !low_byte.
  rewrite !Z.shiftr_div_pow2 by lia. change (2 ^ 8) with 256.
  rewrite Hmod, Hdiv, Z.mod_mod by lia. reflexivity.
Qed.

(** The frame before the byte exchange, checked on every throttle of
    0..2047 and both flags: the throttle is in bits 5-15, the telemetry flag
    in bit 4, the checksum is the reference one, and a second byte exchange
    undoes the first. *)
Lemma fill_fields_exhaustive :
  forallb
    (fun t =>
       forallb
         (fun tel =>
            forallb
              (fun bi =>
                 let f := fill_dshot_frame 0 t tel bi in
                 (frame_throttle f =? t) && (frame_telemetry f =? Z.b2z tel)
                 && (frame_crc f =? reference_crc t tel bi)
                 && (swap_bytes (swap_bytes f) =? f))
              [false; true])
         [false; true])
    (Zrange 2048) = true.
Proof. vm_compute. reflexivity. Qed.

Lemma fill_fields (t : Z) (tel bi : bool) :
  0 <= t <= 2047 ->
  let f := fill_dshot_frame 0 t tel bi in
  frame_throttle f = t /\ frame_telemetry f = Z.b2z tel
  /\ frame_crc f = reference_crc t tel bi
  /\ swap_bytes (swap_bytes f) = f.
Proof.
  intros Ht.
  pose proof (Zrange_forallb _ 2048 fill_fields_exhaustive t ltac:(lia)) as H.
  cbv beta in H. rewrite !forallb_forall in H.
  assert (Htel : In tel [false; true]) by (destruct tel; simpl; auto).
  assert (Hbi : In bi [false; true]) by (destruct bi; simpl; auto).
  specialize (H tel Htel). rewrite forallb_forall in H.
  specialize (H bi Hbi). cbv zeta in H.
  rewrite !andb_true_iff, !Z.eqb_eq in H.
  cbv zeta. tauto.
Qed.

(** C1. For a throttle in 0..2047 the checksum stored in the frame, read
    before the byte exchange, is the low nibble of the 12-bit payload folded
    by XOR with itself shifted right by 4 and by 8, inverted first exactly in
    bidirectional mode; for throttle 1046 without telemetry it is 6, and 9 in
    bidirectional mode. *)
Theorem crc_matches_reference (t : Z) (tel bi : bool) :
  0 <= t <= 2047 ->
  frame_crc (fill_dshot_frame 0 t tel bi) = reference_crc t tel bi
  /\ (t = 1046 -> tel = false ->
      frame_crc (fill_dshot_frame 0 t tel bi) = if bi then 9 else 6).
Proof.
  intros Ht. split.
  - apply (fill_fields t tel bi Ht).
  - intros -> ->. destruct bi; reflexivity.
Qed.

Lemma crc_matches_reference_witness :
  0 <= 1046 <= 2047
  /\ frame_crc (fill_dshot_frame 0 1046 false true) = reference_crc 1046 false true
  /\ frame_crc (fill_dshot_frame 0 1046 false true) = 9.
Proof.
  split; [lia |].
  destruct (crc_matches_reference 1046 false true ltac:(lia)) as [Href Hex].
  split; [exact Href | exact (Hex eq_refl eq_refl)].
Defined.

(** The receiver's reading of every frame of a throttle in 0..2047,
    evaluated. *)
Lemma read_wire_exhaustive :
  forallb
    (fun t =>
       forallb
         (fun tel =>
            forallb
              (fun bi =>
                 let wire := make_dshot_frame 0 t tel bi in
                 let '(t', tel', c') := read_wire wire in
                 (t' =? t) && (tel' =? Z.b2z tel)
                 && (frame_crc (fill_dshot_frame 0 t' (tel' =? 1) bi) =? c')
                 && (reference_crc t' (tel' =? 1) bi =? c')
                 && (nth 0 (frame_bytes wire) 0 =? exchange_bytes wire / 256)
                 && (nth 1 (frame_bytes wire) 0 =? exchange_bytes wire mod 256))
              [false; true])
         [false; true])
    (Zrange 2048) = true.
Proof. vm_compute. reflexivity. Qed.

(** C6. For a throttle in 0..2047, exchanging the two bytes of the wire-order
    frame and reading bits 5-15, bit 4 and bits 0-3 gives back the throttle
    and the telemetry flag, and the checksum computed again from the values
    read (same bidirectional flag) is the checksum read.  The exchange is the
    receiver's own: the value read has the byte sent first as its high
    byte. *)
Theorem wire_frame_round_trip (t : Z) (tel bi : bool) :
  0 <= t <= 2047 ->
  let wire := make_dshot_frame 0 t tel bi in
  let '(t', tel', c') := read_wire wire in
  t' = t /\ tel' = Z.b2z tel
  /\ frame_crc (fill_dshot_frame 0 t' (tel' =? 1) bi) = c'
  /\ reference_crc t' (tel' =? 1) bi = c'
  /\ frame_bytes wire = [exchange_bytes wire / 256; exchange_bytes wire mod 256].
Proof.
  intros Ht. cbv zeta.
  pose proof (Zrange_forallb _ 2048 read_wire_exhaustive t ltac:(lia)) as H.
  cbv beta in H. rewrite forallb_forall in H.
  assert (Htel : In tel [false; true]) by (destruct tel; simpl; auto).
  assert (Hbi : In bi [false; true]) by (destruct bi; simpl; auto).
  specialize (H tel Htel). rewrite forallb_forall in H.
  specialize (H bi Hbi). cbv zeta in H.
  destruct (read_wire (make_dshot_frame 0 t tel bi)) as [[t' tel'] c'].
  rewrite !andb_true_iff, !Z.eqb_eq in H.
  destruct H as (((((H1 & H2) & H3) & H4) & H5) & H6).
  repeat split; try assumption.
  unfold frame_bytes in *. cbn [nth] in H5, H6. rewrite H5, H6. reflexivity.
Qed.

Lemma wire_frame_round_trip_witness :
  0 <= 1046 <= 2047
  /\ (let wire := make_dshot_frame 0 1046 true true in
      let '(t', tel', c') := read_wire wire in
      t' = 1046 /\ tel' = Z.b2z true
      /\ frame_crc (fill_dshot_frame 0 t' (tel' =? 1) true) = c'
      /\ reference_crc t' (tel' =? 1) true = c'
      /\ frame_bytes wire
         = [exchange_bytes wire / 256; exchange_bytes wire mod 256]).
Proof.
  split; [lia | apply (wire_frame_round_trip 1046 true true); lia].
Defined.

(** ** The encode and reset methods *)

Section EncoderFacts.
Context {P : RmtPlatform}.

Lemma size_add_0_l (n : Z) : size_add 0 n = to_uint32 n.
Proof. reflexivity. Qed.

Lemma size_add_to_uint32_l (a b : Z) :
  size_add (to_uint32 a) b = to_uint32 (a + b).
Proof. unfold size_add, to_uint32. apply Zplus_mod_idemp_l. Qed.

Lemma to_uint32_small (n : Z) : 0 <= n < 2 ^ 32 -> to_uint32 n = n.
Proof. apply Z.mod_small. Qed.

(** The frame phase, one equation per answer of the bytes encoder. *)
Lemma encode_frame_phase (e : dshot_rmt_encoder_t) (d : dshot_rmt_throttle_t)
    (m : machine) (w1 : W) (n1 : size_t) (s1 : rmt_encode_state_t) :
  state e = 0 ->
  rmt_encode (bytes_encoder e) (world m) (frame_data e d) = (w1, (n1, s1)) ->
  let m1 := {| world := w1;
               trace := trace m ++ [EvEncode (bytes_encoder e) (frame_data e d)] |} in
  let e1 := if has_flag s1 RMT_ENCODING_COMPLETE then set_state e 1 else e in
  rmt_encode_dshot_esc e d m =
  if has_flag s1 RMT_ENCODING_MEM_FULL
  then ({| encoder := e1; encoded_symbols := to_uint32 n1;
           ret_state := RMT_ENCODING_MEM_FULL |}, m1)
  else send_post_delay e1 (to_uint32 n1) RMT_ENCODING_RESET m1.
Proof.
  intros Hstate Hbytes. unfold rmt_encode_dshot_esc, bind, call_encode.
  rewrite Hstate. unfold frame_data in Hbytes. rewrite Hbytes.
  rewrite size_add_0_l.
  destruct (has_flag s1 RMT_ENCODING_MEM_FULL); reflexivity.
Qed.

(** The gap phase, one equation per answer of the copy encoder. *)
Lemma send_post_delay_eq (e : dshot_rmt_encoder_t) (count : size_t)
    (st : rmt_encode_state_t) (m : machine) (w2 : W) (n2 : size_t)
    (s2 : rmt_encode_state_t) :
  rmt_encode (copy_encoder e) (world m) (delay_data e) = (w2, (n2, s2)) ->
  send_post_delay e count st m =
  (let complete := has_flag s2 RMT_ENCODING_COMPLETE in
   let st1 := if complete then Z.lor st RMT_ENCODING_COMPLETE else st in
   {| encoder := if complete then set_state e RMT_ENCODING_RESET else e;
      encoded_symbols := size_add count n2;
      ret_state :=
        if has_flag s2 RMT_ENCODING_MEM_FULL
        then Z.lor st1 RMT_ENCODING_MEM_FULL else st1 |},
   {| world := w2;
      trace := trace m ++ [EvEncode (copy_encoder e) (delay_data e)] |}).
Proof.
  intros Hcopy. unfold send_post_delay, bind, call_encode.
  unfold delay_data in Hcopy. rewrite Hcopy. reflexivity.
Qed.

(** An encode call entered in the gap phase is the gap phase alone. *)
Lemma encode_gap_phase (e : dshot_rmt_encoder_t) (d : dshot_rmt_throttle_t)
    (m : machine) :
  state e = 1 ->
  rmt_encode_dshot_esc e d m = send_post_delay e 0 RMT_ENCODING_RESET m.
Proof. intros Hstate. unfold rmt_encode_dshot_esc. rewrite Hstate. reflexivity. Qed.

(** C2. In the frame phase, when the bytes encoder reports buffer-full and
    not completion, the call returns with buffer-full set and complete clear,
    the encoder object is unchanged (its phase is still the frame phase), and
    the only sub-encoder call made is the one to the bytes encoder. *)
Theorem frame_phase_buffer_full (e : dshot_rmt_encoder_t)
    (d : dshot_rmt_throttle_t) (m : machine) (w1 : W) (n1 : size_t)
    (s1 : rmt_encode_state_t) :
  state e = 0 ->
  rmt_encode (bytes_encoder e) (world m) (frame_data e d) = (w1, (n1, s1)) ->
  has_flag s1 RMT_ENCODING_MEM_FULL = true ->
  has_flag s1 RMT_ENCODING_COMPLETE = false ->
  let (r, m') := rmt_encode_dshot_esc e d m in
  has_flag (ret_state r) RMT_ENCODING_MEM_FULL = true
  /\ has_flag (ret_state r) RMT_ENCODING_COMPLETE = false
  /\ encoder r = e /\ state (encoder r) = 0
  /\ encoded_symbols r = to_uint32 n1
  /\ world m' = w1
  /\ trace m' = trace m ++ [EvEncode (bytes_encoder e) (frame_data e d)].
Proof.
  intros Hstate Hbytes Hfull Hcomplete.
  rewrite (encode_frame_phase e d m w1 n1 s1 Hstate Hbytes).
  cbv zeta. rewrite Hfull, Hcomplete. cbn.
  repeat split; try reflexivity. exact Hstate.
Qed.

(** C3. In the frame phase, when the bytes encoder reports completion and
    not buffer-full, the same call goes on to call the copy encoder with the
    gap symbol, and the returned count is the [size_t] sum of the two counts
    written, which is their plain sum whenever that fits in 32 bits. *)
Theorem frame_phase_falls_through (e : dshot_rmt_encoder_t)
    (d : dshot_rmt_throttle_t) (m : machine) (w1 w2 : W) (n1 n2 : size_t)
    (s1 s2 : rmt_encode_state_t) :
  state e = 0 ->
  rmt_encode (bytes_encoder e) (world m) (frame_data e d) = (w1, (n1, s1)) ->
  has_flag s1 RMT_ENCODING_COMPLETE = true ->
  has_flag s1 RMT_ENCODING_MEM_FULL = false ->
  rmt_encode (copy_encoder e) w1 (delay_data e) = (w2, (n2, s2)) ->
  let (r, m') := rmt_encode_dshot_esc e d m in
  trace m' =
    trace m ++ [EvEncode (bytes_encoder e) (frame_data e d);
                EvEncode (copy_encoder e) (delay_data e)]
  /\ world m' = w2
  /\ encoded_symbols r = to_uint32 (n1 + n2)
  /\ (0 <= n1 -> 0 <= n2 -> n1 + n2 < 2 ^ 32 -> encoded_symbols r = n1 + n2).
Proof.
  intros Hstate Hbytes Hcomplete Hfull Hcopy.
  rewrite (encode_frame_phase e d m w1 n1 s1 Hstate Hbytes).
  cbv zeta. rewrite Hfull, Hcomplete.
  erewrite send_post_delay_eq by (cbn; exact Hcopy).
  cbn [encoded_symbols world trace]. rewrite size_add_to_uint32_l.
  repeat split.
  - rewrite <- app_assoc. reflexivity.
  - intros H1 H2 Hsum. apply to_uint32_small. lia.
Qed.

(** C10. In the frame phase, when the bytes encoder reports completion and
    buffer-full together, the phase advances to the gap phase, yet the call
    returns with buffer-full set and complete clear after the bytes encoder
    call alone; the next encode call makes the copy encoder call first and
    never calls the bytes encoder. *)
Theorem complete_and_full_together (e : dshot_rmt_encoder_t)
    (d : dshot_rmt_throttle_t) (m : machine) (w1 : W) (n1 : size_t)
    (s1 : rmt_encode_state_t) :
  state e = 0 ->
  rmt_encode (bytes_encoder e) (world m) (frame_data e d) = (w1, (n1, s1)) ->
  has_flag s1 RMT_ENCODING_COMPLETE = true ->
  has_flag s1 RMT_ENCODING_MEM_FULL = true ->
  let (r, m') := rmt_encode_dshot_esc e d m in
  state (encoder r) = 1
  /\ has_flag (ret_state r) RMT_ENCODING_MEM_FULL = true
  /\ has_flag (ret_state r) RMT_ENCODING_COMPLETE = false
  /\ trace m' = trace m ++ [EvEncode (bytes_encoder e) (frame_data e d)]
  /\ forall (d2 : dshot_rmt_throttle_t) (m2 : machine),
       trace (snd (rmt_encode_dshot_esc (encoder r) d2 m2)) =
       trace m2 ++ [EvEncode (copy_encoder e) (delay_data e)].
Proof.
  intros Hstate Hbytes Hcomplete Hfull.
  rewrite (encode_frame_phase e d m w1 n1 s1 Hstate Hbytes).
  cbv zeta. rewrite Hfull, Hcomplete.
  cbn [encoder ret_state state set_state world trace].
  repeat split.
  intros d2 m2. rewrite encode_gap_phase by reflexivity.
  destruct (rmt_encode (copy_encoder e) (world m2) (delay_data e))
    as [w2 [n2 s2]] eqn:Hcopy.
  erewrite send_post_delay_eq by (cbn; exact Hcopy).
  reflexivity.
Qed.

(** C4. One frame encoded by two calls, the first completing the frame
    phase and stopped by buffer-full in the gap phase, the second completing
    the gap phase, returns in total as many symbols as one call that
    completes both phases, and leaves the encoder in the same phase, the
    frame phase, when the sub-encoders write the same counts in both runs. *)
Theorem split_encode_same_as_single (e : dshot_rmt_encoder_t)
    (d : dshot_rmt_throttle_t) (m_split m_resume m_single : machine)
    (w1 w2 w3 v1 v2 : W) (n g1 g2 : size_t)
    (s1 s2 s3 t1 t2 : rmt_encode_state_t) :
  state e = 0 ->
  rmt_encode (bytes_encoder e) (world m_split) (frame_data e d) = (w1, (n, s1)) ->
  has_flag s1 RMT_ENCODING_COMPLETE = true ->
  has_flag s1 RMT_ENCODING_MEM_FULL = false ->
  rmt_encode (copy_encoder e) w1 (delay_data e) = (w2, (g1, s2)) ->
  has_flag s2 RMT_ENCODING_MEM_FULL = true ->
  has_flag s2 RMT_ENCODING_COMPLETE = false ->
  rmt_encode (copy_encoder e) (world m_resume) (delay_data e) = (w3, (g2, s3)) ->
  has_flag s3 RMT_ENCODING_COMPLETE = true ->
  rmt_encode (bytes_encoder e) (world m_single) (frame_data e d) = (v1, (n, t1)) ->
  has_flag t1 RMT_ENCODING_COMPLETE = true ->
  has_flag t1 RMT_ENCODING_MEM_FULL = false ->
  rmt_encode (copy_encoder e) v1 (delay_data e) = (v2, (g1 + g2, t2)) ->
  has_flag t2 RMT_ENCODING_COMPLETE = true ->
  0 <= n -> 0 <= g1 -> 0 <= g2 -> n + g1 + g2 < 2 ^ 32 ->
  let (r1, _) := rmt_encode_dshot_esc e d m_split in
  let (r2, _) := rmt_encode_dshot_esc (encoder r1) d m_resume in
  let (r, _) := rmt_encode_dshot_esc e d m_single in
  encoded_symbols r1 + encoded_symbols r2 = encoded_symbols r
  /\ state (encoder r2) = state (encoder r)
  /\ state (encoder r2) = 0
  /\ state (encoder r1) = 1
  /\ has_flag (ret_state r1) RMT_ENCODING_MEM_FULL = true
  /\ has_flag (ret_state r1) RMT_ENCODING_COMPLETE = false
  /\ has_flag (ret_state r2) RMT_ENCODING_COMPLETE = true
  /\ has_flag (ret_state r) RMT_ENCODING_COMPLETE = true.
Proof.
  intros Hstate Hb1 Hb1c Hb1f Hg1 Hg1f Hg1c Hg2 Hg2c Hb Hbc Hbf Hg Hgc
         Hn Hg1n Hg2n Hsum.
  rewrite (encode_frame_phase e d m_split w1 n s1 Hstate Hb1).
  rewrite (encode_frame_phase e d m_single v1 n t1 Hstate Hb).
  cbv zeta. rewrite Hb1c, Hb1f, Hbc, Hbf.
  erewrite (send_post_delay_eq _ _ _ {| world := w1 |}) by (cbn; exact Hg1).
  erewrite (send_post_delay_eq _ _ _ {| world := v1 |}) by (cbn; exact Hg).
  cbv zeta. rewrite Hg1f, Hg1c, Hgc. cbn [encoder].
  rewrite encode_gap_phase by reflexivity.
  erewrite send_post_delay_eq by (cbn; exact Hg2).
  cbv zeta. rewrite Hg2c. cbn [encoder encoded_symbols ret_state state set_state].
  unfold size_add. rewrite (to_uint32_small n) by lia.
  rewrite (to_uint32_small (n + g1)), (to_uint32_small (0 + g2)),
    (to_uint32_small (n + (g1 + g2))) by lia.
  repeat split; try lia.
  - destruct (has_flag s3 RMT_ENCODING_MEM_FULL); reflexivity.
  - destruct (has_flag t2 RMT_ENCODING_MEM_FULL); reflexivity.
Qed.

(** The status and the phase left by the gap phase. *)
Lemma send_post_delay_phase (e : dshot_rmt_encoder_t) (count : size_t)
    (m : machine) :
  let r := fst (send_post_delay e count RMT_ENCODING_RESET m) in
  (has_flag (ret_state r) RMT_ENCODING_COMPLETE = true -> state (encoder r) = 0)
  /\ (state (encoder r) = 0 \/ state (encoder r) = state e).
Proof.
  destruct (rmt_encode (copy_encoder e) (world m) (delay_data e))
    as [w2 [n2 s2]] eqn:Hcopy.
  rewrite (send_post_delay_eq e count _ m w2 n2 s2 Hcopy).
  cbv zeta. cbn [fst encoder ret_state].
  destruct (has_flag s2 RMT_ENCODING_COMPLETE),
           (has_flag s2 RMT_ENCODING_MEM_FULL);
    cbn; split; auto; discriminate.
Qed.

(** An encode call that reports completion leaves the frame phase behind,
    whatever the phase it was entered in. *)
Lemma encode_complete_phase (e : dshot_rmt_encoder_t)
    (d : dshot_rmt_throttle_t) (m : machine) :
  let r := fst (rmt_encode_dshot_esc e d m) in
  has_flag (ret_state r) RMT_ENCODING_COMPLETE = true -> state (encoder r) = 0.
Proof.
  cbv zeta. destruct (Z.eq_dec (state e) 0) as [H0 | H0].
  - destruct (rmt_encode (bytes_encoder e) (world m) (frame_data e d))
      as [w1 [n1 s1]] eqn:Hbytes.
    rewrite (encode_frame_phase e d m w1 n1 s1 H0 Hbytes). cbv zeta.
    destruct (has_flag s1 RMT_ENCODING_MEM_FULL).
    + cbn. discriminate.
    + apply send_post_delay_phase.
  - destruct (Z.eq_dec (state e) 1) as [H1 | H1].
    + rewrite encode_gap_phase by exact H1. apply send_post_delay_phase.
    + unfold rmt_encode_dshot_esc.
      destruct (state e) as [| [p | p |] | p]; try contradiction;
        cbn; discriminate.
Qed.

(** An encode call keeps the phase within the two phases of the switch. *)
Lemma encode_keeps_phase (e : dshot_rmt_encoder_t)
    (d : dshot_rmt_throttle_t) (m : machine) :
  state e = 0 \/ state e = 1 ->
  let r := fst (rmt_encode_dshot_esc e d m) in
  state (encoder r) = 0 \/ state (encoder r) = 1.
Proof.
  intros [H0 | H1]; cbv zeta.
  - destruct (rmt_encode (bytes_encoder e) (world m) (frame_data e d))
      as [w1 [n1 s1]] eqn:Hbytes.
    rewrite (encode_frame_phase e d m w1 n1 s1 H0 Hbytes). cbv zeta.
    destruct (has_flag s1 RMT_ENCODING_MEM_FULL).
    + cbn [fst encoder]. destruct (has_flag s1 RMT_ENCODING_COMPLETE); cbn; auto.
    + match goal with
      | |- context [send_post_delay ?e1 ?c _ ?m1] =>
          destruct (send_post_delay_phase e1 c m1) as [_ [Hz | Hsame]]
      end; [left; exact Hz |].
      rewrite Hsame.
      destruct (has_flag s1 RMT_ENCODING_COMPLETE); cbn; auto.
  - rewrite encode_gap_phase by exact H1.
    destruct (send_post_delay_phase e 0 m) as [_ [Hz | Hsame]];
      [left; exact Hz | right; rewrite Hsame; exact H1].
Qed.

(** Reset, from any phase: both sub-encoders are reset, bytes encoder first,
    and the phase is the frame phase. *)
Lemma reset_effect (e : dshot_rmt_encoder_t) (m : machine) :
  rmt_dshot_encoder_reset e m =
  ((set_state e 0, ESP_OK),
   {| world :=
        rmt_encoder_reset (copy_encoder e)
          (rmt_encoder_reset (bytes_encoder e) (world m));
      trace := trace m ++ [EvReset (bytes_encoder e); EvReset (copy_encoder e)] |}).
Proof.
  unfold rmt_dshot_encoder_reset, bind, call_reset, ret. cbn.
  rewrite <- app_assoc. reflexivity.
Qed.

(** No request sequence leaves the two phases. *)
Lemma serve_all_keeps_phase (rs : list request) :
  forall (e : dshot_rmt_encoder_t) (m : machine),
    state e = 0 \/ state e = 1 ->
    state (fst (serve_all e rs m)) = 0 \/ state (fst (serve_all e rs m)) = 1.
Proof.
  induction rs as [| r rs IH]; intros e m He; [exact He |].
  cbn [serve_all]. destruct (serve e r m) as [e' m'] eqn:Hserve.
  apply IH. destruct r as [d | | step]; cbn [serve] in Hserve.
  - pose proof (encode_keeps_phase e d m He) as Hk. cbv zeta in Hk.
    destruct (rmt_encode_dshot_esc e d m) as [res m1].
    injection Hserve as <- _. exact Hk.
  - rewrite reset_effect in Hserve. injection Hserve as <- _. left. reflexivity.
  - injection Hserve as <- _. exact He.
Qed.

End EncoderFacts.

Lemma frame_phase_buffer_full_witness :
  let (r, m') :=
    rmt_encode_dshot_esc (P := bench_platform) bench_encoder half_throttle
      (start 5 false) in
  has_flag (ret_state r) RMT_ENCODING_MEM_FULL = true
  /\ has_flag (ret_state r) RMT_ENCODING_COMPLETE = false
  /\ encoder r = bench_encoder /\ state (encoder r) = 0
  /\ encoded_symbols r = to_uint32 5
  /\ world m' = {| free := 0; eager_full := false |}
  /\ trace m' =
     trace (start 5 false)
     ++ [EvEncode (bytes_encoder bench_encoder)
           (frame_data bench_encoder half_throttle)].
Proof.
  apply (frame_phase_buffer_full (P := bench_platform) bench_encoder
           half_throttle (start 5 false)
           {| free := 0; eager_full := false |} 5 RMT_ENCODING_MEM_FULL);
    reflexivity.
Defined.

(** ** Construction *)

Section ConstructionFacts.
Context {T : Target}.

Lemma heap_free_head (a : Z) (h : heap) : heap_free a (a :: h) = h.
Proof. cbn. rewrite Z.eqb_refl. reflexivity. Qed.

Lemma unsigned_of_fp_range (x : spec_float) : 0 <= unsigned_of_fp x < 2 ^ 32.
Proof.
  unfold unsigned_of_fp, to_uint32.
  destruct (integer_part x) as [z |].
  - destruct ((0 <=? z) && (z <? 2 ^ 32)) eqn:E.
    + apply andb_true_iff in E. lia.
    + apply Z.mod_pos_bound. lia.
  - apply Z.mod_pos_bound. lia.
Qed.

Lemma delay_ticks_range (config : Config.dshot_rmt_encoder_config_t) :
  0 <= delay_ticks config < 2 ^ 32.
Proof. apply unsigned_of_fp_range. Qed.

(** The clean-up path gives back every block taken since entry. *)
Lemma err_exit_nothing_allocated (ret : esp_err_t)
    (cell : option rmt_encoder_handle_t)
    (table : option rmt_bytes_encoder_config_t) (live0 : heap) :
  err_exit ret None cell table live0 =
  {| status := ret; ret_encoder := cell; object := None;
     bytes_encoder_config := table; live := live0 |}.
Proof. reflexivity. Qed.

Lemma err_exit_block_only (ret : esp_err_t) (addr : positive)
    (e : dshot_rmt_encoder_t) (cell : option rmt_encoder_handle_t)
    (table : option rmt_bytes_encoder_config_t) (live0 : heap) :
  bytes_encoder e = NULL -> copy_encoder e = NULL ->
  live (err_exit ret (Some (Zpos addr, e)) cell table (Zpos addr :: live0))
  = live0.
Proof.
  intros Hb Hc. unfold err_exit. rewrite Hb, Hc. cbn [live].
  change (NULL =? NULL) with true. cbv iota. apply heap_free_head.
Qed.

Lemma err_exit_block_and_bytes (ret : esp_err_t) (addr h : positive)
    (e : dshot_rmt_encoder_t) (cell : option rmt_encoder_handle_t)
    (table : option rmt_bytes_encoder_config_t) (live0 : heap) :
  bytes_encoder e = Zpos h -> copy_encoder e = NULL ->
  live (err_exit ret (Some (Zpos addr, e)) cell table
          (Zpos h :: Zpos addr :: live0))
  = live0.
Proof.
  intros Hb Hc. unfold err_exit, rmt_del_encoder. rewrite Hb, Hc. cbn [live].
  change (NULL =? NULL) with true. change (Zpos h =? NULL) with false.
  cbv iota. rewrite !heap_free_head. reflexivity.
Qed.

(** The four ways out of the constructor. *)
Lemma new_encoder_cases (env : answers)
    (config : option Config.dshot_rmt_encoder_config_t)
    (cell : option rmt_encoder_handle_t) (live0 : heap) :
  let c := rmt_new_dshot_esc_encoder env config cell live0 in
  let released :=
    live c = live0 /\ ret_encoder c = cell /\ object c = None in
  ((config = None \/ cell = None)
   /\ status c = ESP_ERR_INVALID_ARG /\ released)
  \/ (config <> None /\ cell <> None /\ encoder_mem env = None
      /\ status c = ESP_ERR_NO_MEM /\ released)
  \/ (config <> None /\ cell <> None /\ encoder_mem env <> None
      /\ fst (new_bytes_encoder env) <> ESP_OK
      /\ status c = fst (new_bytes_encoder env) /\ released)
  \/ (config <> None /\ cell <> None /\ encoder_mem env <> None
      /\ fst (new_bytes_encoder env) = ESP_OK
      /\ fst (new_copy_encoder env) <> ESP_OK
      /\ status c = fst (new_copy_encoder env) /\ released)
  \/ (exists cfg addr,
        config = Some cfg /\ cell <> None /\ encoder_mem env = Some addr
        /\ fst (new_bytes_encoder env) = ESP_OK
        /\ fst (new_copy_encoder env) = ESP_OK
        /\ status c = ESP_OK
        /\ ret_encoder c = Some (Zpos addr)
        /\ object c =
           Some {| bytes_encoder := Zpos (snd (new_bytes_encoder env));
                   copy_encoder := Zpos (snd (new_copy_encoder env));
                   dshot_delay_symbol := make_delay_symbol cfg;
                   state := 0;
                   bidirectional := Config.bidirectional cfg |}
        /\ bytes_encoder_config c = Some (make_bytes_encoder_config cfg)
        /\ live c =
           Zpos (snd (new_copy_encoder env))
           :: Zpos (snd (new_bytes_encoder env)) :: Zpos addr :: live0).
Proof.
  cbv zeta. unfold rmt_new_dshot_esc_encoder.
  destruct config as [cfg |]; [destruct cell as [old |] |];
    try (left; rewrite err_exit_nothing_allocated; cbn; auto; fail).
  destruct (encoder_mem env) as [addr |].
  2: { right; left. rewrite err_exit_nothing_allocated. cbn.
       repeat split; congruence. }
  destruct (new_bytes_encoder env) as [rc1 h1].
  destruct (rc1 =? ESP_OK) eqn:E1.
  2: { apply Z.eqb_neq in E1. right; right; left. cbn [fst].
       repeat split; try congruence.
       apply err_exit_block_only; reflexivity. }
  apply Z.eqb_eq in E1. subst rc1.
  destruct (new_copy_encoder env) as [rc2 h2].
  destruct (rc2 =? ESP_OK) eqn:E2.
  2: { apply Z.eqb_neq in E2. right; right; right; left. cbn [fst].
       repeat split; try congruence.
       unfold heap_alloc. apply err_exit_block_and_bytes; reflexivity. }
  apply Z.eqb_eq in E2. subst rc2.
  right; right; right; right. exists cfg, addr. cbn.
  repeat split; congruence.
Qed.

(** Deleting a constructed encoder gives back the three blocks the
    constructor took. *)
Lemma delete_after_construction (env : answers)
    (config : option Config.dshot_rmt_encoder_config_t)
    (cell : option rmt_encoder_handle_t) (live0 : heap)
    (addr : Z) (e : dshot_rmt_encoder_t) :
  let c := rmt_new_dshot_esc_encoder env config cell live0 in
  ret_encoder c = Some addr -> object c = Some e ->
  rmt_del_dshot_encoder addr e (live c) = (ESP_OK, live0).
Proof.
  cbv zeta. intros Hret Hobj.
  destruct (new_encoder_cases env config cell live0)
    as [(_ & _ & _ & _ & Hnone)
       | [(_ & _ & _ & _ & _ & _ & Hnone)
         | [(_ & _ & _ & _ & _ & _ & _ & Hnone)
           | [(_ & _ & _ & _ & _ & _ & _ & _ & Hnone)
             | (cfg & a & _ & _ & _ & _ & _ & _ & Hcell & Hsome & _ & Hlive)]]]];
    try congruence.
  rewrite Hcell in Hret. injection Hret as <-.
  rewrite Hsome in Hobj. injection Hobj as <-.
  rewrite Hlive. unfold rmt_del_dshot_encoder, rmt_del_encoder.
  cbn [bytes_encoder copy_encoder]. f_equal.
  set (hb := Zpos (snd (new_bytes_encoder env))).
  set (hc := Zpos (snd (new_copy_encoder env))).
  cbn [heap_free]. destruct (hb =? hc) eqn:E.
  - apply Z.eqb_eq in E. rewrite <- E, heap_free_head. apply heap_free_head.
  - rewrite Z.eqb_refl. rewrite heap_free_head. apply heap_free_head.
Qed.

(** C7. The constructor returns [ESP_ERR_INVALID_ARG] whenever the
    configuration pointer or the result pointer is null, and, the two
    sub-encoder constructors (which are given non-null pointers) not
    answering [ESP_ERR_INVALID_ARG] themselves, in no other case, whatever
    the configuration holds.  It fails exactly when a pointer is null, the
    block cannot be allocated or a sub-encoder constructor fails, and every
    failure leaves the heap as it was on entry, stores nothing through the
    result pointer and hands over no object. *)
Theorem construction_all_or_nothing (env : answers)
    (config : option Config.dshot_rmt_encoder_config_t)
    (cell : option rmt_encoder_handle_t) (live0 : heap) :
  let c := rmt_new_dshot_esc_encoder env config cell live0 in
  (config = None \/ cell = None -> status c = ESP_ERR_INVALID_ARG)
  /\ (fst (new_bytes_encoder env) <> ESP_ERR_INVALID_ARG ->
      fst (new_copy_encoder env) <> ESP_ERR_INVALID_ARG ->
      status c = ESP_ERR_INVALID_ARG -> config = None \/ cell = None)
  /\ (status c <> ESP_OK <->
      config = None \/ cell = None \/ encoder_mem env = None
      \/ fst (new_bytes_encoder env) <> ESP_OK
      \/ (fst (new_bytes_encoder env) = ESP_OK
          /\ fst (new_copy_encoder env) <> ESP_OK))
  /\ (status c <> ESP_OK ->
      live c = live0 /\ ret_encoder c = cell /\ object c = None).
Proof.
  cbv zeta.
  destruct (new_encoder_cases env config cell live0)
    as [(Hnull & Hst & Hrel)
       | [(Hc & Hr & Hmem & Hst & Hrel)
         | [(Hc & Hr & Hmem & Hb & Hst & Hrel)
           | [(Hc & Hr & Hmem & Hb & Hcp & Hst & Hrel)
             | (cfg & addr & Hc & Hr & Hmem & Hb & Hcp & Hst & _)]]]];
    rewrite Hst; (split; [| split; [| split]]);
    try (intros _; exact Hrel).
  - reflexivity.
  - tauto.
  - split; [tauto | discriminate].
  - tauto.
  - discriminate.
  - split; [tauto | discriminate].
  - tauto.
  - congruence.
  - split; [tauto | intros _; exact Hb].
  - tauto.
  - congruence.
  - split; [tauto | intros _; exact Hcp].
  - intros [H | H]; congruence.
  - discriminate.
  - split; [congruence |].
    intros [H | [H | [H | [H | [_ H]]]]]; congruence.
  - congruence.
Qed.

(** C8, amended. The gap symbol of a constructed encoder has level 0 in both
    halves and two equal half-durations, each the low 15 bits of
    [delay_ticks / 2]; when [delay_ticks / 2] fits the 15-bit duration field,
    each half-duration is [delay_ticks / 2], the whole gap lasts
    [2 * (delay_ticks / 2)] ticks, and that is one tick less than
    [delay_ticks] when [delay_ticks] is odd. *)
Theorem gap_symbol_halves (env : answers)
    (config : Config.dshot_rmt_encoder_config_t)
    (cell : option rmt_encoder_handle_t) (live0 : heap)
    (e : dshot_rmt_encoder_t) :
  object (rmt_new_dshot_esc_encoder env (Some config) cell live0) = Some e ->
  let s := dshot_delay_symbol e in
  let d := delay_ticks config in
  level0 s = 0 /\ level1 s = 0
  /\ duration0 s = duration1 s
  /\ duration0 s = (d / 2) mod 2 ^ DURATION_BITS
  /\ (d / 2 < 2 ^ DURATION_BITS ->
      duration0 s = d / 2 /\ duration1 s = d / 2
      /\ symbol_duration s = 2 * (d / 2)
      /\ (Z.odd d = true -> symbol_duration s = d - 1)).
Proof.
  intros Hobj.
  destruct (new_encoder_cases env (Some config) cell live0)
    as [(_ & _ & _ & _ & Hnone)
       | [(_ & _ & _ & _ & _ & _ & Hnone)
         | [(_ & _ & _ & _ & _ & _ & _ & Hnone)
           | [(_ & _ & _ & _ & _ & _ & _ & _ & Hnone)
             | (cfg & addr & Hc & _ & _ & _ & _ & _ & _ & Hsome & _)]]]];
    try congruence.
  injection Hc as <-. rewrite Hsome in Hobj. injection Hobj as <-.
  cbv zeta. cbn [dshot_delay_symbol]. unfold make_delay_symbol, symbol_duration.
  cbn [symbol_word duration0 duration1 level0 level1].
  pose proof (delay_ticks_range config) as Hd.
  repeat split.
  - rewrite Z.mod_small by (split; [apply Z.div_pos; lia | exact H]).
    reflexivity.
  - rewrite Z.mod_small by (split; [apply Z.div_pos; lia | exact H]).
    reflexivity.
  - rewrite Z.mod_small by (split; [apply Z.div_pos; lia | exact H]). lia.
  - intros Hodd.
    rewrite Z.mod_small by (split; [apply Z.div_pos; lia | exact H]).
    rewrite (Z.div_mod (delay_ticks config) 2) at 3 by lia.
    rewrite Zmod_odd, Hodd. lia.
Qed.

(** C9. For a 40 MHz tick and 600 kbit/s the bit period is the binary32
    value 8738133 * 2^-17, 66.67 ticks to two decimals.  The high duration
    of a one is the integer part of period * 0.7485, a product of 49.9, which
    is 49 ticks and so about 50; its low duration is the integer part of
    period - 49, which is 17 ticks.  The high duration of a zero is the
    integer part of period * 0.37425, a product of 24.95, which is 24 ticks
    and so about 25; its low duration is the integer part of period - 24,
    which is 42 ticks.  These four values are the table handed to the bytes
    encoder. *)
Theorem dshot600_bit_table (env : answers)
    (cell : rmt_encoder_handle_t) (live0 : heap) :
  encoder_mem env <> None ->
  let period := period_ticks dshot600 in
  let one_high :=
    SFmul 53 1024 (double_of_float period) (double_constant 7485 10000) in
  let zero_high :=
    SFmul 53 1024 (double_of_float period) (double_constant 37425 100000) in
  (period = S754_finite false 8738133 (-17)
   /\ 666666 * 2 ^ 17 < 8738133 * 10000 < 666667 * 2 ^ 17)
  /\ (one_high = S754_finite false 7022800401032283 (-47)
      /\ 4989 * 2 ^ 47 < 7022800401032283 * 100 < 4990 * 2 ^ 47
      /\ integer_part one_high = Some 49
      /\ t1h_ticks dshot600 = 49 /\ about (t1h_ticks dshot600) 50)
  /\ (integer_part (SFsub 24 128 period (float_of_unsigned 49)) = Some 17
      /\ t1l_ticks dshot600 = 17 /\ about (t1l_ticks dshot600) 17)
  /\ (zero_high = S754_finite false 7022800401032283 (-48)
      /\ 2494 * 2 ^ 48 < 7022800401032283 * 100 < 2495 * 2 ^ 48
      /\ integer_part zero_high = Some 24
      /\ t0h_ticks dshot600 = 24 /\ about (t0h_ticks dshot600) 25)
  /\ (integer_part (SFsub 24 128 period (float_of_unsigned 24)) = Some 42
      /\ t0l_ticks dshot600 = 42 /\ about (t0l_ticks dshot600) 42)
  /\ bytes_encoder_config
       (rmt_new_dshot_esc_encoder env (Some dshot600) (Some cell) live0)
     = Some
         {| bit0 := {| duration0 := 24; level0 := 1;
                       duration1 := 42; level1 := 0 |};
            bit1 := {| duration0 := 49; level0 := 1;
                       duration1 := 17; level1 := 0 |};
            msb_first := true |}.
Proof.
  intros Hmem. cbv zeta.
  assert (Htable :
            make_bytes_encoder_config dshot600 =
            {| bit0 := {| duration0 := 24; level0 := 1;
                          duration1 := 42; level1 := 0 |};
               bit1 := {| duration0 := 49; level0 := 1;
                          duration1 := 17; level1 := 0 |};
               msb_first := true |}) by (vm_compute; reflexivity).
  assert (H1h : t1h_ticks dshot600 = 49) by (vm_compute; reflexivity).
  assert (H1l : t1l_ticks dshot600 = 17) by (vm_compute; reflexivity).
  assert (H0h : t0h_ticks dshot600 = 24) by (vm_compute; reflexivity).
  assert (H0l : t0l_ticks dshot600 = 42) by (vm_compute; reflexivity).
  unfold about. rewrite H1h, H1l, H0h, H0l.
  split; [split; [vm_compute; reflexivity | lia] |].
  split; [split; [vm_compute; reflexivity |];
          split; [lia |]; split; [vm_compute; reflexivity |];
          split; [reflexivity | cbn; lia] |].
  split; [split; [vm_compute; reflexivity |];
          split; [reflexivity | cbn; lia] |].
  split; [split; [vm_compute; reflexivity |];
          split; [lia |]; split; [vm_compute; reflexivity |];
          split; [reflexivity | cbn; lia] |].
  split; [split; [vm_compute; reflexivity |];
          split; [reflexivity | cbn; lia] |].
  rewrite <- Htable. unfold rmt_new_dshot_esc_encoder.
  destruct (encoder_mem env) as [addr |]; [| contradiction].
  destruct (new_bytes_encoder env) as [rc1 h1].
  destruct (rc1 =? ESP_OK); [| reflexivity].
  destruct (new_copy_encoder env) as [rc2 h2].
  destruct (rc2 =? ESP_OK); reflexivity.
Qed.

End ConstructionFacts.

(** ** The phase of a constructed encoder *)

Section PhaseFacts.
Context {T : Target} {P : RmtPlatform}.

(** C5. A freshly constructed encoder is in the frame phase; whatever encode
    and reset calls follow, its phase is 0 (frame) or 1 (gap); an encode call
    that returns with the complete flag set leaves the frame phase, from any
    object; and reset, from any object, resets the bytes encoder and the copy
    encoder and leaves the frame phase. *)
Theorem phase_is_frame_or_gap (env : answers)
    (config : option Config.dshot_rmt_encoder_config_t)
    (cell : option rmt_encoder_handle_t) (live0 : heap)
    (e : dshot_rmt_encoder_t) :
  object (rmt_new_dshot_esc_encoder env config cell live0) = Some e ->
  state e = 0
  /\ (forall (rs : list request) (m : machine),
        let e' := fst (serve_all e rs m) in state e' = 0 \/ state e' = 1)
  /\ (forall (e0 : dshot_rmt_encoder_t) (d : dshot_rmt_throttle_t) (m : machine),
        let r := fst (rmt_encode_dshot_esc e0 d m) in
        has_flag (ret_state r) RMT_ENCODING_COMPLETE = true ->
        state (encoder r) = 0)
  /\ (forall (e0 : dshot_rmt_encoder_t) (m : machine),
        let (res, m') := rmt_dshot_encoder_reset e0 m in
        state (fst res) = 0
        /\ snd res = ESP_OK
        /\ world m' =
           rmt_encoder_reset (copy_encoder e0)
             (rmt_encoder_reset (bytes_encoder e0) (world m))
        /\ trace m' =
           trace m ++ [EvReset (bytes_encoder e0); EvReset (copy_encoder e0)]).
Proof.
  intros Hobj.
  assert (Hfresh : state e = 0).
  { destruct (new_encoder_cases env config cell live0)
      as [(_ & _ & _ & _ & Hnone)
         | [(_ & _ & _ & _ & _ & _ & Hnone)
           | [(_ & _ & _ & _ & _ & _ & _ & Hnone)
             | [(_ & _ & _ & _ & _ & _ & _ & _ & Hnone)
               | (cfg & addr & _ & _ & _ & _ & _ & _ & _ & Hsome & _)]]]];
      try congruence.
    rewrite Hsome in Hobj. injection Hobj as <-. reflexivity. }
  split; [exact Hfresh |]. split; [| split].
  - intros rs m. apply serve_all_keeps_phase. left. exact Hfresh.
  - intros e0 d m. apply encode_complete_phase.
  - intros e0 m. rewrite reset_effect. cbn. repeat split.
Qed.

End PhaseFacts.

(** ** The theorems at concrete inputs *)

Lemma frame_phase_falls_through_witness :
  state bench_encoder = 0
  /\ (let (r, m') :=
        rmt_encode_dshot_esc (P := bench_platform) bench_encoder half_throttle
          (start 64 false) in
      trace m' =
        trace (start 64 false)
        ++ [EvEncode (bytes_encoder bench_encoder)
              (frame_data bench_encoder half_throttle);
            EvEncode (copy_encoder bench_encoder) (delay_data bench_encoder)]
      /\ world m' = {| free := 47; eager_full := false |}
      /\ encoded_symbols r = to_uint32 (16 + 1)
      /\ (0 <= 16 -> 0 <= 1 -> 16 + 1 < 2 ^ 32 -> encoded_symbols r = 16 + 1)).
Proof.
  split; [reflexivity |].
  apply (frame_phase_falls_through (P := bench_platform) bench_encoder
           half_throttle (start 64 false)
           {| free := 48; eager_full := false |}
           {| free := 47; eager_full := false |}
           16 1 RMT_ENCODING_COMPLETE RMT_ENCODING_COMPLETE);
    reflexivity.
Defined.

Lemma complete_and_full_together_witness :
  state bench_encoder = 0
  /\ (let (r, m') :=
        rmt_encode_dshot_esc (P := bench_platform) bench_encoder half_throttle
          (start 16 true) in
      state (encoder r) = 1
      /\ has_flag (ret_state r) RMT_ENCODING_MEM_FULL = true
      /\ has_flag (ret_state r) RMT_ENCODING_COMPLETE = false
      /\ trace m' =
         trace (start 16 true)
         ++ [EvEncode (bytes_encoder bench_encoder)
               (frame_data bench_encoder half_throttle)]
      /\ forall (d2 : dshot_rmt_throttle_t) (m2 : machine (P := bench_platform)),
           trace (snd (rmt_encode_dshot_esc (encoder r) d2 m2)) =
           trace m2
           ++ [EvEncode (copy_encoder bench_encoder) (delay_data bench_encoder)]).
Proof.
  split; [reflexivity |].
  apply (complete_and_full_together (P := bench_platform) bench_encoder
           half_throttle (start 16 true)
           {| free := 0; eager_full := true |} 16
           (Z.lor RMT_ENCODING_COMPLETE RMT_ENCODING_MEM_FULL));
    reflexivity.
Defined.

Lemma split_encode_same_as_single_witness :
  state bench_encoder = 0
  /\ 16 + 0 + 1 < 2 ^ 32
  /\ (let (r1, _) :=
        rmt_encode_dshot_esc (P := bench_platform) bench_encoder half_throttle
          (start 16 false) in
      let (r2, _) :=
        rmt_encode_dshot_esc (P := bench_platform) (encoder r1) half_throttle
          (start 48 false) in
      let (r, _) :=
        rmt_encode_dshot_esc (P := bench_platform) bench_encoder half_throttle
          (start 64 false) in
      encoded_symbols r1 + encoded_symbols r2 = encoded_symbols r
      /\ state (encoder r2) = state (encoder r)
      /\ state (encoder r2) = 0
      /\ state (encoder r1) = 1
      /\ has_flag (ret_state r1) RMT_ENCODING_MEM_FULL = true
      /\ has_flag (ret_state r1) RMT_ENCODING_COMPLETE = false
      /\ has_flag (ret_state r2) RMT_ENCODING_COMPLETE = true
      /\ has_flag (ret_state r) RMT_ENCODING_COMPLETE = true).
Proof.
  split; [reflexivity |]. split; [lia |].
  apply (split_encode_same_as_single (P := bench_platform) bench_encoder
           half_throttle (start 16 false) (start 48 false) (start 64 false)
           {| free := 0; eager_full := false |}
           {| free := 0; eager_full := false |}
           {| free := 47; eager_full := false |}
           {| free := 48; eager_full := false |}
           {| free := 47; eager_full := false |}
           16 0 1
           RMT_ENCODING_COMPLETE RMT_ENCODING_MEM_FULL RMT_ENCODING_COMPLETE
           RMT_ENCODING_COMPLETE RMT_ENCODING_COMPLETE);
    first [reflexivity | lia].
Defined.

Lemma construction_all_or_nothing_witness :
  let c :=
    rmt_new_dshot_esc_encoder (T := bench_target) copy_fails
      (Some dshot600) (Some NULL) [64] in
  fst (new_bytes_encoder copy_fails) <> ESP_ERR_INVALID_ARG
  /\ fst (new_copy_encoder copy_fails) <> ESP_ERR_INVALID_ARG
  /\ status c <> ESP_OK
  /\ (status c = ESP_ERR_INVALID_ARG -> Some dshot600 = None \/ Some NULL = None)
  /\ live c = [64] /\ ret_encoder c = Some NULL /\ object c = None.
Proof.
  cbv zeta.
  destruct (construction_all_or_nothing (T := bench_target) copy_fails
              (Some dshot600) (Some NULL) [64]) as (_ & Honly & _ & Hrel).
  assert (Hb : fst (new_bytes_encoder copy_fails) <> ESP_ERR_INVALID_ARG)
    by discriminate.
  assert (Hc : fst (new_copy_encoder copy_fails) <> ESP_ERR_INVALID_ARG)
    by discriminate.
  assert (Hfail :
            status (rmt_new_dshot_esc_encoder (T := bench_target) copy_fails
                      (Some dshot600) (Some NULL) [64]) <> ESP_OK)
    by (vm_compute; discriminate).
  split; [exact Hb |]. split; [exact Hc |]. split; [exact Hfail |].
  split; [exact (Honly Hb Hc) | exact (Hrel Hfail)].
Defined.

Example copy_failure_rolls_back :
  rmt_new_dshot_esc_encoder (T := bench_target) copy_fails (Some dshot600)
    (Some NULL) [64]
  = {| status := ESP_ERR_NO_MEM; ret_encoder := Some NULL; object := None;
       bytes_encoder_config :=
         Some (make_bytes_encoder_config (T := bench_target) dshot600);
       live := [64] |}.
Proof. vm_compute. reflexivity. Qed.

Lemma gap_symbol_halves_witness :
  object (rmt_new_dshot_esc_encoder (T := bench_target) plentiful
            (Some dshot600) (Some NULL) []) = Some bench_encoder
  /\ (let s := dshot_delay_symbol bench_encoder in
      let d := delay_ticks (T := bench_target) dshot600 in
      level0 s = 0 /\ level1 s = 0
      /\ duration0 s = duration1 s
      /\ duration0 s = (d / 2) mod 2 ^ DURATION_BITS
      /\ (d / 2 < 2 ^ DURATION_BITS ->
          duration0 s = d / 2 /\ duration1 s = d / 2
          /\ symbol_duration s = 2 * (d / 2)
          /\ (Z.odd d = true -> symbol_duration s = d - 1))).
Proof.
  split; [vm_compute; reflexivity |].
  apply (gap_symbol_halves (T := bench_target) plentiful dshot600 (Some NULL) []).
  vm_compute. reflexivity.
Defined.

(** C8 as worded fails for a two millisecond gap on a 40 MHz tick:
    [delay_ticks] is 80000, its half 40000 does not fit the 15-bit duration
    field, and the symbol holds 7232 in each half. *)
Lemma gap_symbol_halves_overflow :
  match
    object (rmt_new_dshot_esc_encoder (T := bench_target) plentiful
              (Some long_gap) (Some NULL) [])
  with
  | Some e =>
      delay_ticks (T := bench_target) long_gap = 80000
      /\ duration0 (dshot_delay_symbol e) = 7232
      /\ duration0 (dshot_delay_symbol e)
         <> delay_ticks (T := bench_target) long_gap / 2
      /\ symbol_duration (dshot_delay_symbol e)
         <> 2 * (delay_ticks (T := bench_target) long_gap / 2)
  | None => False
  end.
Proof. vm_compute. repeat split; discriminate. Qed.

Lemma dshot600_bit_table_witness :
  encoder_mem plentiful <> None
  /\ t1h_ticks (T := bench_target) dshot600 = 49
  /\ about (t1h_ticks (T := bench_target) dshot600) 50
  /\ t1l_ticks (T := bench_target) dshot600 = 17
  /\ t0h_ticks (T := bench_target) dshot600 = 24
  /\ about (t0h_ticks (T := bench_target) dshot600) 25
  /\ t0l_ticks (T := bench_target) dshot600 = 42
  /\ bytes_encoder_config
       (rmt_new_dshot_esc_encoder (T := bench_target) plentiful
          (Some dshot600) (Some NULL) [])
     = Some
         {| bit0 := {| duration0 := 24; level0 := 1;
                       duration1 := 42; level1 := 0 |};
            bit1 := {| duration0 := 49; level0 := 1;
                       duration1 := 17; level1 := 0 |};
            msb_first := true |}.
Proof.
  assert (Hmem : encoder_mem plentiful <> None) by discriminate.
  destruct (dshot600_bit_table (T := bench_target) plentiful NULL [] Hmem)
    as (_ & (_ & _ & _ & H1h & A1h) & (_ & H1l & _)
        & (_ & _ & _ & H0h & A0h) & (_ & H0l & _) & Htable).
  repeat (split; [assumption |]). exact Htable.
Defined.

Lemma phase_is_frame_or_gap_witness :
  object (rmt_new_dshot_esc_encoder (T := bench_target) plentiful
            (Some dshot600) (Some NULL) []) = Some bench_encoder
  /\ state bench_encoder = 0
  /\ (forall (rs : list request) (m : machine (P := bench_platform)),
        let e' := fst (serve_all bench_encoder rs m) in
        state e' = 0 \/ state e' = 1).
Proof.
  split; [vm_compute; reflexivity |].
  destruct (phase_is_frame_or_gap (T := bench_target) (P := bench_platform)
              plentiful (Some dshot600) (Some NULL) [] bench_encoder)
    as (Hfresh & Hinv & _).
  - vm_compute. reflexivity.
  - split; [exact Hfresh | exact Hinv].
Defined.

(** * Further properties of the source *)

(** ** [make_dshot_frame] *)

(** Only the low five bits of the frame passed in and the low eleven bits of
    the throttle reach the two bit-field stores. *)
Lemma fill_reads_low_bits (frame t : Z) (tel bi : bool) :
  fill_dshot_frame frame t tel bi =
  fill_dshot_frame (frame mod 32) (t mod 2048) tel bi.
Proof.
  assert (H5 : forall z, Z.land z 0x1F = z mod 32)
    by (intros z; change 0x1F with (Z.ones 5); apply Z.land_ones; lia).
  assert (H11 : forall z, Z.land z 0x7FF = z mod 2048)
    by (intros z; change 0x7FF with (Z.ones 11); apply Z.land_ones; lia).
  unfold fill_dshot_frame, set_throttle.
  rewrite !H5, !H11, !Z.mod_mod by lia. reflexivity.
Qed.

Lemma fill_ignores_frame_exhaustive :
  forallb
    (fun t =>
       forallb
         (fun c =>
            forallb
              (fun tel =>
                 forallb
                   (fun bi =>
                      let f := fill_dshot_frame 0 t tel bi in
                      (fill_dshot_frame c t tel bi =? f)
                      && (f =? t * 32 + Z.b2z tel * 16 + reference_crc t tel bi)
                      && (f <? 2 ^ 16) && (0 <=? f))
                   [false; true])
              [false; true])
         (Zrange 32))
    (Zrange 2048) = true.
Proof. vm_compute. reflexivity. Qed.

Lemma fill_ignores_frame_small (c t : Z) (tel bi : bool) :
  0 <= c < 32 -> 0 <= t < 2048 ->
  let f := fill_dshot_frame 0 t tel bi in
  fill_dshot_frame c t tel bi = f
  /\ f = t * 32 + Z.b2z tel * 16 + reference_crc t tel bi
  /\ 0 <= f < 2 ^ 16.
Proof.
  intros Hc Ht.
  pose proof (Zrange_forallb _ 2048 fill_ignores_frame_exhaustive t ltac:(lia))
    as H.
  cbv beta in H.
  pose proof (Zrange_forallb _ 32 H c ltac:(lia)) as H'. cbv beta in H'.
  rewrite forallb_forall in H'.
  assert (Htel : In tel [false; true]) by (destruct tel; simpl; auto).
  assert (Hbi : In bi [false; true]) by (destruct bi; simpl; auto).
  specialize (H' tel Htel). rewrite forallb_forall in H'.
  specialize (H' bi Hbi). cbv zeta in H'.
  rewrite !andb_true_iff, !Z.eqb_eq, Z.ltb_lt, Z.leb_le in H'.
  cbv zeta. tauto.
Qed.

(** The frame before the byte exchange, for any frame passed in and any
    throttle: it is the one built from a zeroed frame and the throttle reduced
    modulo 2048, and its value is the three fields side by side. *)
Lemma fill_normal_form (frame t : Z) (tel bi : bool) :
  let f := fill_dshot_frame frame t tel bi in
  f = fill_dshot_frame 0 (t mod 2048) tel bi
  /\ f = (t mod 2048) * 32 + Z.b2z tel * 16 + reference_crc (t mod 2048) tel bi
  /\ 0 <= f < 2 ^ 16.
Proof.
  cbv zeta. rewrite (fill_reads_low_bits frame).
  pose proof (Z.mod_pos_bound frame 32 ltac:(lia)) as Hc.
  pose proof (Z.mod_pos_bound t 2048 ltac:(lia)) as Ht.
  destruct (fill_ignores_frame_small (frame mod 32) (t mod 2048) tel bi Hc Ht)
    as (-> & Hval & Hrange).
  repeat split; try exact Hval; apply Hrange.
Qed.

(** X1. [make_dshot_frame] overwrites the frame it is given: the result does
    not depend on what the frame held on entry. *)
Theorem make_frame_ignores_previous_content (frame t : Z) (tel bi : bool) :
  make_dshot_frame frame t tel bi = make_dshot_frame 0 t tel bi.
Proof.
  unfold make_dshot_frame. cbv zeta. f_equal.
  destruct (fill_normal_form frame t tel bi) as (-> & _).
  destruct (fill_normal_form 0 t tel bi) as (-> & _). reflexivity.
Qed.

(** X2. Only the low eleven bits of the throttle argument are sent: a
    throttle and its remainder modulo 2048 give the same frame, so that 2048
    is sent as 0, and the throttle field of the frame is that remainder. *)
Theorem throttle_wraps_at_2048 (t : Z) (tel bi : bool) :
  make_dshot_frame 0 t tel bi = make_dshot_frame 0 (t mod 2048) tel bi
  /\ make_dshot_frame 0 (t + 2048) tel bi = make_dshot_frame 0 t tel bi
  /\ frame_throttle (fill_dshot_frame 0 t tel bi) = t mod 2048.
Proof.
  unfold make_dshot_frame. cbv zeta.
  destruct (fill_normal_form 0 t tel bi) as (Ht & _).
  destruct (fill_normal_form 0 (t + 2048) tel bi) as (Ht' & _).
  replace ((t + 2048) mod 2048) with (t mod 2048) in Ht'
    by (replace (t + 2048) with (t + 1 * 2048) by lia;
        rewrite Z.mod_add by lia; reflexivity).
  rewrite Ht, Ht'. repeat split.
  apply (fill_fields (t mod 2048) tel bi).
  pose proof (Z.mod_pos_bound t 2048 ltac:(lia)). lia.
Qed.

(** X3. The two bytes handed to the bytes encoder are the high byte and then
    the low byte of the 16-bit value throttle * 32 + telemetry * 16 + checksum:
    sent most significant bit first, the line carries eleven throttle bits,
    the telemetry bit and the four checksum bits, in this order. *)
Theorem wire_layout (t : Z) (tel bi : bool) :
  let value :=
    (t mod 2048) * 32 + Z.b2z tel * 16 + reference_crc (t mod 2048) tel bi in
  frame_bytes (make_dshot_frame 0 t tel bi) = [value / 256; value mod 256]
  /\ 0 <= value < 2 ^ 16.
Proof.
  cbv zeta.
  destruct (fill_normal_form 0 t tel bi) as (_ & Hval & Hrange).
  unfold make_dshot_frame. cbv zeta.
  rewrite frame_bytes_high_first by exact Hrange.
  rewrite <- Hval. split; [| exact Hrange].
  rewrite Z.shiftr_div_pow2, low_byte by lia. reflexivity.
Qed.

Lemma modes_and_flips_exhaustive :
  forallb
    (fun t =>
       forallb
         (fun tel =>
            (frame_crc (fill_dshot_frame 0 t tel true)
             =? 15 - frame_crc (fill_dshot_frame 0 t tel false))
            && forallb
                 (fun bi =>
                    let wire := make_dshot_frame 0 t tel bi in
                    checksum_ok bi wire
                    && forallb
                         (fun i => negb (checksum_ok bi (flip_bit wire i)))
                         (Zrange 16))
                 [false; true])
         [false; true])
    (Zrange 2048) = true.
Proof. vm_compute. reflexivity. Qed.

Lemma modes_and_flips (t : Z) (tel bi : bool) (i : Z) :
  0 <= t < 2048 -> 0 <= i < 16 ->
  frame_crc (fill_dshot_frame 0 t tel true)
  = 15 - frame_crc (fill_dshot_frame 0 t tel false)
  /\ checksum_ok bi (make_dshot_frame 0 t tel bi) = true
  /\ checksum_ok bi (flip_bit (make_dshot_frame 0 t tel bi) i) = false.
Proof.
  intros Ht Hi.
  pose proof (Zrange_forallb _ 2048 modes_and_flips_exhaustive t ltac:(lia))
    as H.
  cbv beta in H. rewrite forallb_forall in H.
  assert (Htel : In tel [false; true]) by (destruct tel; simpl; auto).
  assert (Hbi : In bi [false; true]) by (destruct bi; simpl; auto).
  specialize (H tel Htel). apply andb_true_iff in H. destruct H as [Hcrc H].
  rewrite forallb_forall in H. specialize (H bi Hbi). cbv zeta in H.
  apply andb_true_iff in H. destruct H as [Hok Hflip].
  pose proof (Zrange_forallb _ 16 Hflip i ltac:(lia)) as Hi'. cbv beta in Hi'.
  apply Z.eqb_eq in Hcrc. apply negb_true_iff in Hi'. auto.
Qed.

(** Two frames before the byte exchange that are exchanged to the same wire
    value are the same frame. *)
Lemma wire_determines_frame (t1 t2 : Z) (tel1 tel2 bi1 bi2 : bool) :
  make_dshot_frame 0 t1 tel1 bi1 = make_dshot_frame 0 t2 tel2 bi2 ->
  fill_dshot_frame 0 t1 tel1 bi1 = fill_dshot_frame 0 t2 tel2 bi2.
Proof.
  unfold make_dshot_frame. cbv zeta. intros Heq.
  destruct (fill_normal_form 0 t1 tel1 bi1) as (_ & _ & H1).
  destruct (fill_normal_form 0 t2 tel2 bi2) as (_ & _ & H2).
  rewrite <- (swap_bytes_involutive _ H1), <- (swap_bytes_involutive _ H2).
  rewrite Heq. reflexivity.
Qed.

(** The throttle and telemetry fields of a frame, for any throttle
    argument. *)
Lemma fill_payload_fields (t : Z) (tel bi : bool) :
  let f := fill_dshot_frame 0 t tel bi in
  frame_throttle f = t mod 2048 /\ frame_telemetry f = Z.b2z tel
  /\ frame_crc f = frame_crc (fill_dshot_frame 0 (t mod 2048) tel bi).
Proof.
  cbv zeta. destruct (fill_normal_form 0 t tel bi) as (-> & _).
  pose proof (Z.mod_pos_bound t 2048 ltac:(lia)) as Ht.
  destruct (fill_fields (t mod 2048) tel bi ltac:(lia)) as (H1 & H2 & _).
  auto.
Qed.

(** X4. Two calls build the same frame exactly when they agree on the mode,
    on the telemetry flag and on the throttle modulo 2048: no two commands
    share a frame. *)
Theorem frames_are_distinct (t1 t2 : Z) (tel1 tel2 bi : bool) :
  make_dshot_frame 0 t1 tel1 bi = make_dshot_frame 0 t2 tel2 bi
  <-> t1 mod 2048 = t2 mod 2048 /\ tel1 = tel2.
Proof.
  split.
  - intros Heq. apply wire_determines_frame in Heq.
    destruct (fill_payload_fields t1 tel1 bi) as (Hthr1 & Htel1 & _).
    destruct (fill_payload_fields t2 tel2 bi) as (Hthr2 & Htel2 & _).
    rewrite Heq in Hthr1, Htel1. split; [congruence |].
    rewrite Htel2 in Htel1. destruct tel1, tel2; cbn in Htel1; congruence.
  - intros [Ht ->]. unfold make_dshot_frame. cbv zeta. f_equal.
    destruct (fill_normal_form 0 t1 tel2 bi) as (-> & _).
    destruct (fill_normal_form 0 t2 tel2 bi) as (-> & _).
    rewrite Ht. reflexivity.
Qed.

Lemma frames_are_distinct_witness :
  make_dshot_frame 0 1046 false false <> make_dshot_frame 0 1047 false false
  /\ make_dshot_frame 0 3094 true true = make_dshot_frame 0 1046 true true.
Proof.
  split.
  - intros Heq.
    destruct (proj1 (frames_are_distinct 1046 1047 false false false) Heq)
      as [Hthr _].
    vm_compute in Hthr. discriminate Hthr.
  - apply (proj2 (frames_are_distinct 3094 1046 true true true)).
    split; reflexivity.
Defined.

(** X5. In bidirectional mode the checksum is the complement of the
    checksum of normal mode, 15 minus it, and a frame built in one mode is
    never a frame of the other mode, whatever throttle and telemetry flag
    the other was built from. *)
Theorem bidirectional_checksum_is_complement (t1 t2 : Z) (tel1 tel2 : bool) :
  frame_crc (fill_dshot_frame 0 t1 tel1 true)
  = 15 - frame_crc (fill_dshot_frame 0 t1 tel1 false)
  /\ make_dshot_frame 0 t1 tel1 true <> make_dshot_frame 0 t2 tel2 false.
Proof.
  assert (Hcompl : forall t tel,
             frame_crc (fill_dshot_frame 0 t tel true)
             = 15 - frame_crc (fill_dshot_frame 0 t tel false)).
  { intros t tel.
    destruct (fill_payload_fields t tel true) as (_ & _ & ->).
    destruct (fill_payload_fields t tel false) as (_ & _ & ->).
    pose proof (Z.mod_pos_bound t 2048 ltac:(lia)) as Ht.
    apply (modes_and_flips (t mod 2048) tel false 0 Ht). lia. }
  split; [apply Hcompl |].
  intros Heq. apply wire_determines_frame in Heq.
  destruct (fill_payload_fields t1 tel1 true) as (Hthr1 & Htel1 & Hc1).
  destruct (fill_payload_fields t2 tel2 false) as (Hthr2 & Htel2 & Hc2).
  destruct (fill_payload_fields t1 tel1 false) as (_ & _ & Hc1').
  assert (Htel : tel1 = tel2).
  { rewrite Heq, Htel2 in Htel1. destruct tel1, tel2; cbn in Htel1; congruence. }
  assert (Hthr : t1 mod 2048 = t2 mod 2048) by congruence.
  pose proof (Hcompl t1 tel1) as Hc.
  rewrite Heq, Hc2, <- Hthr, <- Htel, <- Hc1' in Hc. lia.
Qed.

(** X6. A frame as built passes the receiver's check, computing the
    checksum again from the throttle and telemetry bits received, and with
    any one of its sixteen bits inverted it fails that check. *)
Theorem single_bit_error_detected (t : Z) (tel bi : bool) (i : Z) :
  0 <= i < 16 ->
  checksum_ok bi (make_dshot_frame 0 t tel bi) = true
  /\ checksum_ok bi (flip_bit (make_dshot_frame 0 t tel bi) i) = false.
Proof.
  intros Hi.
  assert (Hwrap : make_dshot_frame 0 t tel bi
                  = make_dshot_frame 0 (t mod 2048) tel bi).
  { unfold make_dshot_frame. cbv zeta. f_equal.
    destruct (fill_normal_form 0 t tel bi) as (-> & _).
    destruct (fill_normal_form 0 (t mod 2048) tel bi) as (-> & _).
    rewrite Z.mod_mod by lia. reflexivity. }
  rewrite Hwrap.
  pose proof (Z.mod_pos_bound t 2048 ltac:(lia)) as Ht.
  apply (modes_and_flips (t mod 2048) tel bi i Ht Hi).
Qed.

Lemma single_bit_error_detected_witness :
  0 <= 7 < 16
  /\ checksum_ok true (make_dshot_frame 0 1046 false true) = true
  /\ checksum_ok true (flip_bit (make_dshot_frame 0 1046 false true) 7) = false.
Proof.
  split; [lia | apply (single_bit_error_detected 1046 false true 7); lia].
Defined.

(** ** [rmt_encode_dshot_esc] and [rmt_dshot_encoder_reset] *)

Section MoreEncoderFacts.
Context {P : RmtPlatform}.

(** X7. In the gap phase, when the copy encoder reports buffer-full and not
    completion, the call returns buffer-full alone, leaves the encoder object
    as it was (still in the gap phase) and has called the copy encoder only:
    the bytes encoder is not called again and the frame is not sent twice. *)
Theorem gap_phase_buffer_full (e : dshot_rmt_encoder_t)
    (d : dshot_rmt_throttle_t) (m : machine) (w2 : W) (n2 : size_t)
    (s2 : rmt_encode_state_t) :
  state e = 1 ->
  rmt_encode (copy_encoder e) (world m) (delay_data e) = (w2, (n2, s2)) ->
  has_flag s2 RMT_ENCODING_MEM_FULL = true ->
  has_flag s2 RMT_ENCODING_COMPLETE = false ->
  let (r, m') := rmt_encode_dshot_esc e d m in
  ret_state r = RMT_ENCODING_MEM_FULL
  /\ encoder r = e
  /\ encoded_symbols r = to_uint32 n2
  /\ world m' = w2
  /\ trace m' = trace m ++ [EvEncode (copy_encoder e) (delay_data e)].
Proof.
  intros Hstate Hcopy Hfull Hcomplete.
  rewrite encode_gap_phase by exact Hstate.
  rewrite (send_post_delay_eq e 0 _ m w2 n2 s2 Hcopy).
  cbv zeta. rewrite Hfull, Hcomplete. repeat split.
Qed.

(** X8. In the gap phase, when the copy encoder reports completion, the call
    returns with the complete flag, and with buffer-full exactly when the copy
    encoder reported it too; the phase is the frame phase again and nothing
    else of the object changes.  The throttle argument plays no part: any
    other argument gives the same result. *)
Theorem gap_phase_complete (e : dshot_rmt_encoder_t)
    (d : dshot_rmt_throttle_t) (m : machine) (w2 : W) (n2 : size_t)
    (s2 : rmt_encode_state_t) :
  state e = 1 ->
  rmt_encode (copy_encoder e) (world m) (delay_data e) = (w2, (n2, s2)) ->
  has_flag s2 RMT_ENCODING_COMPLETE = true ->
  (let (r, m') := rmt_encode_dshot_esc e d m in
   has_flag (ret_state r) RMT_ENCODING_COMPLETE = true
   /\ has_flag (ret_state r) RMT_ENCODING_MEM_FULL
      = has_flag s2 RMT_ENCODING_MEM_FULL
   /\ encoder r = set_state e 0
   /\ encoded_symbols r = to_uint32 n2
   /\ world m' = w2
   /\ trace m' = trace m ++ [EvEncode (copy_encoder e) (delay_data e)])
  /\ forall d2 : dshot_rmt_throttle_t,
       rmt_encode_dshot_esc e d2 m = rmt_encode_dshot_esc e d m.
Proof.
  intros Hstate Hcopy Hcomplete. split.
  - rewrite encode_gap_phase by exact Hstate.
    rewrite (send_post_delay_eq e 0 _ m w2 n2 s2 Hcopy).
    cbv zeta. rewrite Hcomplete. cbn [ret_state encoder encoded_symbols world trace].
    destruct (has_flag s2 RMT_ENCODING_MEM_FULL); repeat split.
  - intros d2. rewrite !encode_gap_phase by exact Hstate. reflexivity.
Qed.

(** X9. In the frame phase, when the bytes encoder reports neither
    completion nor buffer-full, the call still goes on to the copy encoder
    and sends the gap symbol; the phase stays the frame phase whatever the
    copy encoder reports, and the call reports completion exactly when the
    copy encoder does, although the frame was not reported complete. *)
Theorem frame_phase_without_flags (e : dshot_rmt_encoder_t)
    (d : dshot_rmt_throttle_t) (m : machine) (w1 w2 : W) (n1 n2 : size_t)
    (s1 s2 : rmt_encode_state_t) :
  state e = 0 ->
  rmt_encode (bytes_encoder e) (world m) (frame_data e d) = (w1, (n1, s1)) ->
  has_flag s1 RMT_ENCODING_COMPLETE = false ->
  has_flag s1 RMT_ENCODING_MEM_FULL = false ->
  rmt_encode (copy_encoder e) w1 (delay_data e) = (w2, (n2, s2)) ->
  let (r, m') := rmt_encode_dshot_esc e d m in
  trace m' =
    trace m ++ [EvEncode (bytes_encoder e) (frame_data e d);
                EvEncode (copy_encoder e) (delay_data e)]
  /\ world m' = w2
  /\ state (encoder r) = 0
  /\ has_flag (ret_state r) RMT_ENCODING_COMPLETE
     = has_flag s2 RMT_ENCODING_COMPLETE
  /\ has_flag (ret_state r) RMT_ENCODING_MEM_FULL
     = has_flag s2 RMT_ENCODING_MEM_FULL
  /\ encoded_symbols r = to_uint32 (n1 + n2).
Proof.
  intros Hstate Hbytes Hcomplete Hfull Hcopy.
  rewrite (encode_frame_phase e d m w1 n1 s1 Hstate Hbytes).
  cbv zeta. rewrite Hfull, Hcomplete.
  erewrite send_post_delay_eq by (cbn; exact Hcopy).
  cbn [encoded_symbols world trace encoder ret_state].
  rewrite size_add_to_uint32_l, <- app_assoc.
  destruct (has_flag s2 RMT_ENCODING_COMPLETE),
           (has_flag s2 RMT_ENCODING_MEM_FULL);
    cbn; repeat split; exact Hstate.
Qed.

Lemma same_configuration_refl (e : dshot_rmt_encoder_t) :
  same_configuration e e.
Proof. repeat split. Qed.

Lemma same_configuration_set_state (e : dshot_rmt_encoder_t) (s : Z) :
  same_configuration e (set_state e s).
Proof. repeat split. Qed.

Lemma same_configuration_trans (e1 e2 e3 : dshot_rmt_encoder_t) :
  same_configuration e1 e2 -> same_configuration e2 e3 ->
  same_configuration e1 e3.
Proof.
  intros (A1 & A2 & A3 & A4) (B1 & B2 & B3 & B4).
  repeat split; congruence.
Qed.

Lemma own_call_same_configuration (e e' : dshot_rmt_encoder_t) (ev : event) :
  same_configuration e e' -> own_call e' ev -> own_call e ev.
Proof.
  intros (Hb & Hc & Hs & Hm). unfold own_call, frame_data, delay_data.
  rewrite Hb, Hc, Hs, Hm. tauto.
Qed.

Lemma to_uint32_range (z : Z) : 0 <= to_uint32 z < 2 ^ 32.
Proof. apply Z.mod_pos_bound. lia. Qed.

(** What the gap phase does, whatever the copy encoder answers. *)
Lemma send_post_delay_summary (e : dshot_rmt_encoder_t) (count : size_t)
    (m : machine) :
  let (r, m') := send_post_delay e count RMT_ENCODING_RESET m in
  same_configuration e (encoder r)
  /\ (ret_state r = 0 \/ ret_state r = 1 \/ ret_state r = 2 \/ ret_state r = 3)
  /\ 0 <= encoded_symbols r < 2 ^ 32
  /\ trace m' = trace m ++ [EvEncode (copy_encoder e) (delay_data e)]
  /\ (has_flag (ret_state r) RMT_ENCODING_COMPLETE = true ->
      state (encoder r) = 0
      /\ exists n s,
           rmt_encode (copy_encoder e) (world m) (delay_data e)
           = (world m', (n, s))
           /\ has_flag s RMT_ENCODING_COMPLETE = true).
Proof.
  destruct (rmt_encode (copy_encoder e) (world m) (delay_data e))
    as [w2 [n2 s2]] eqn:Hcopy.
  rewrite (send_post_delay_eq e count _ m w2 n2 s2 Hcopy). cbv zeta.
  cbn [encoder ret_state encoded_symbols world trace].
  split; [destruct (has_flag s2 RMT_ENCODING_COMPLETE);
          [apply same_configuration_set_state | apply same_configuration_refl] |].
  split; [destruct (has_flag s2 RMT_ENCODING_COMPLETE),
                   (has_flag s2 RMT_ENCODING_MEM_FULL); cbn; auto |].
  split; [apply to_uint32_range |].
  split; [reflexivity |].
  destruct (has_flag s2 RMT_ENCODING_COMPLETE) eqn:Hc.
  - intros _. split; [reflexivity |]. exists n2, s2. auto.
  - destruct (has_flag s2 RMT_ENCODING_MEM_FULL); cbn; discriminate.
Qed.

(** What one encode call does, whatever the phase and the answers of the
    sub-encoders. *)
Lemma encode_summary (e : dshot_rmt_encoder_t) (d : dshot_rmt_throttle_t)
    (m : machine) :
  let (r, m') := rmt_encode_dshot_esc e d m in
  same_configuration e (encoder r)
  /\ (ret_state r = 0 \/ ret_state r = 1 \/ ret_state r = 2 \/ ret_state r = 3)
  /\ 0 <= encoded_symbols r < 2 ^ 32
  /\ (exists evs,
        trace m' = trace m ++ evs /\ Forall (own_call e) evs
        /\ (length evs <= 2)%nat)
  /\ (has_flag (ret_state r) RMT_ENCODING_COMPLETE = true ->
      state (encoder r) = 0
      /\ exists evs w n s,
           trace m' = trace m ++ evs ++ [EvEncode (copy_encoder e) (delay_data e)]
           /\ rmt_encode (copy_encoder e) w (delay_data e) = (world m', (n, s))
           /\ has_flag s RMT_ENCODING_COMPLETE = true).
Proof.
  assert (Hbytes_call :
            own_call e (EvEncode (bytes_encoder e) (frame_data e d)))
    by (left; split; [reflexivity | exists d; reflexivity]).
  assert (Hcopy_call : own_call e (EvEncode (copy_encoder e) (delay_data e)))
    by (right; split; reflexivity).
  destruct (Z.eq_dec (state e) 0) as [H0 | H0].
  - destruct (rmt_encode (bytes_encoder e) (world m) (frame_data e d))
      as [w1 [n1 s1]] eqn:Hbytes.
    rewrite (encode_frame_phase e d m w1 n1 s1 H0 Hbytes). cbv zeta.
    set (e1 := if has_flag s1 RMT_ENCODING_COMPLETE then set_state e 1 else e).
    assert (He1 : same_configuration e e1).
    { subst e1. destruct (has_flag s1 RMT_ENCODING_COMPLETE);
        [apply same_configuration_set_state | apply same_configuration_refl]. }
    destruct (has_flag s1 RMT_ENCODING_MEM_FULL).
    + cbn [encoder ret_state encoded_symbols world trace].
      split; [exact He1 |]. split; [cbn; auto |].
      split; [apply to_uint32_range |]. split.
      * eexists. split; [reflexivity |]. split; [| cbn; lia].
        constructor; [exact Hbytes_call | constructor].
      * cbn. discriminate.
    + match goal with
      | |- context [send_post_delay e1 ?c _ ?m1] =>
          pose proof (send_post_delay_summary e1 c m1) as Hgap;
          destruct (send_post_delay e1 c RMT_ENCODING_RESET m1) as [r m']
      end.
      destruct Hgap as (Hcfg & Hst & Hcount & Htrace & Hcomplete).
      destruct He1 as (Eb & Ec & Es & Em).
      assert (Hdelay : delay_data e1 = delay_data e)
        by (unfold delay_data; rewrite Es; reflexivity).
      rewrite Ec, Hdelay in Htrace, Hcomplete. cbn [trace world] in Htrace, Hcomplete.
      split; [apply (same_configuration_trans e e1);
              [repeat split; assumption | exact Hcfg] |].
      split; [exact Hst |]. split; [exact Hcount |]. split.
      * eexists. split; [rewrite Htrace, <- app_assoc; reflexivity |].
        split; [| cbn; lia].
        constructor; [exact Hbytes_call |].
        constructor; [exact Hcopy_call | constructor].
      * intros Hc. destruct (Hcomplete Hc) as (Hphase & n & s & Hcall & Hs).
        split; [exact Hphase |].
        exists [EvEncode (bytes_encoder e) (frame_data e d)], w1, n, s.
        split; [rewrite Htrace, <- app_assoc; reflexivity | auto].
  - destruct (Z.eq_dec (state e) 1) as [H1 | H1].
    + rewrite encode_gap_phase by exact H1.
      pose proof (send_post_delay_summary e 0 m) as Hgap.
      destruct (send_post_delay e 0 RMT_ENCODING_RESET m) as [r m'].
      destruct Hgap as (Hcfg & Hst & Hcount & Htrace & Hcomplete).
      split; [exact Hcfg |]. split; [exact Hst |]. split; [exact Hcount |].
      split.
      * eexists. split; [exact Htrace |]. split; [| cbn; lia].
        constructor; [exact Hcopy_call | constructor].
      * intros Hc. destruct (Hcomplete Hc) as (Hphase & n & s & Hcall & Hs).
        split; [exact Hphase |]. exists [], (world m), n, s. auto.
    + unfold rmt_encode_dshot_esc.
      destruct (state e) as [| [p | p |] | p]; try contradiction;
        (cbn; split; [apply same_configuration_refl |];
         split; [auto |]; split; [lia |];
         split; [exists []; rewrite app_nil_r; repeat split;
                 [constructor | cbn; lia] | discriminate]).
Qed.

(** X10. Whatever the sub-encoders report, the status an encode call returns
    holds no other bit than complete and buffer-full, the returned count is
    within [size_t], and the call makes at most two sub-encoder calls. *)
Theorem encode_status_and_count_bounds (e : dshot_rmt_encoder_t)
    (d : dshot_rmt_throttle_t) (m : machine) :
  let (r, m') := rmt_encode_dshot_esc e d m in
  (ret_state r = RMT_ENCODING_RESET
   \/ ret_state r = RMT_ENCODING_COMPLETE
   \/ ret_state r = RMT_ENCODING_MEM_FULL
   \/ ret_state r = Z.lor RMT_ENCODING_COMPLETE RMT_ENCODING_MEM_FULL)
  /\ 0 <= encoded_symbols r < 2 ^ 32
  /\ exists evs, trace m' = trace m ++ evs /\ (length evs <= 2)%nat.
Proof.
  pose proof (encode_summary e d m) as H.
  destruct (rmt_encode_dshot_esc e d m) as [r m'].
  destruct H as (_ & Hst & Hcount & (evs & Htrace & _ & Hlen) & _).
  split; [exact Hst |]. split; [exact Hcount |]. exists evs. auto.
Qed.

(** X11. An encode call reports completion only if its last sub-encoder call
    was the copy encoder taking the gap symbol and reporting completion: a
    frame is never reported complete before its gap has been handed over. *)
Theorem completion_comes_from_gap (e : dshot_rmt_encoder_t)
    (d : dshot_rmt_throttle_t) (m : machine) :
  let (r, m') := rmt_encode_dshot_esc e d m in
  has_flag (ret_state r) RMT_ENCODING_COMPLETE = true ->
  exists evs w n s,
    trace m' = trace m ++ evs ++ [EvEncode (copy_encoder e) (delay_data e)]
    /\ rmt_encode (copy_encoder e) w (delay_data e) = (world m', (n, s))
    /\ has_flag s RMT_ENCODING_COMPLETE = true.
Proof.
  pose proof (encode_summary e d m) as H.
  destruct (rmt_encode_dshot_esc e d m) as [r m'].
  destruct H as (_ & _ & _ & _ & Hcomplete).
  intros Hc. apply (Hcomplete Hc).
Qed.

(** What any sequence of requests does to the object and to the trace. *)
Lemma serve_all_summary (rs : list request) :
  forall (e : dshot_rmt_encoder_t) (m : machine),
    let (e', m') := serve_all e rs m in
    same_configuration e e'
    /\ exists evs, trace m' = trace m ++ evs /\ Forall (own_call e) evs.
Proof.
  induction rs as [| r rs IH]; intros e m.
  - cbn. split; [apply same_configuration_refl |].
    exists []. rewrite app_nil_r. split; [reflexivity | constructor].
  - cbn [serve_all].
    assert (Hstep :
              let (e1, m1) := serve e r m in
              same_configuration e e1
              /\ exists evs, trace m1 = trace m ++ evs /\ Forall (own_call e) evs).
    { destruct r as [d | | step]; cbn [serve].
      - pose proof (encode_summary e d m) as H.
        destruct (rmt_encode_dshot_esc e d m) as [res m1].
        destruct H as (Hcfg & _ & _ & (evs & Htrace & Hown & _) & _).
        split; [exact Hcfg |]. exists evs. auto.
      - rewrite reset_effect. cbn [fst]. split;
          [apply same_configuration_set_state |].
        eexists. split; [reflexivity |].
        constructor; [left; reflexivity |].
        constructor; [right; reflexivity | constructor].
      - split; [apply same_configuration_refl |].
        exists []. cbn. rewrite app_nil_r. split; [reflexivity | constructor]. }
    destruct (serve e r m) as [e1 m1].
    destruct Hstep as (Hcfg1 & evs1 & Htrace1 & Hown1).
    specialize (IH e1 m1). destruct (serve_all e1 rs m1) as [e' m'].
    destruct IH as (Hcfg & evs & Htrace & Hown).
    split; [apply (same_configuration_trans e e1 e'); assumption |].
    exists (evs1 ++ evs). split.
    + rewrite Htrace, Htrace1, app_assoc. reflexivity.
    + apply Forall_app. split; [exact Hown1 |].
      apply (Forall_impl _ (fun ev => own_call_same_configuration e e1 ev Hcfg1)).
      exact Hown.
Qed.

(** X12. No sequence of encode and reset calls changes the sub-encoder
    handles, the gap symbol or the bidirectional flag of an encoder object:
    what construction fixed stays fixed. *)
Theorem configuration_never_changes (e : dshot_rmt_encoder_t)
    (rs : list request) (m : machine) :
  let e' := fst (serve_all e rs m) in
  bytes_encoder e' = bytes_encoder e
  /\ copy_encoder e' = copy_encoder e
  /\ dshot_delay_symbol e' = dshot_delay_symbol e
  /\ Encoder.bidirectional e' = Encoder.bidirectional e.
Proof.
  cbv zeta. pose proof (serve_all_summary rs e m) as H.
  destruct (serve_all e rs m) as [e' m']. destruct H as [Hcfg _]. exact Hcfg.
Qed.

(** X13. Over any sequence of encode and reset calls the encoder calls
    nothing but its own two sub-encoders, hands its bytes encoder two-byte
    frames built from a throttle argument and its copy encoder the gap
    symbol fixed at construction, and never removes a call from the record
    of calls made before. *)
Theorem only_own_sub_encoders_called (e : dshot_rmt_encoder_t)
    (rs : list request) (m : machine) :
  exists evs,
    trace (snd (serve_all e rs m)) = trace m ++ evs
    /\ Forall (own_call e) evs.
Proof.
  pose proof (serve_all_summary rs e m) as H.
  destruct (serve_all e rs m) as [e' m']. destruct H as [_ Hevs]. exact Hevs.
Qed.

(** X14. Reset followed by encode starts a frame afresh, whatever the phase
    before: the two sub-encoders are reset, bytes encoder first, and the next
    call made is the bytes encoder taking the frame of the new throttle
    argument. *)
Theorem reset_then_encode_starts_a_frame (e : dshot_rmt_encoder_t)
    (d : dshot_rmt_throttle_t) (m : machine) :
  let (res, m1) := rmt_dshot_encoder_reset e m in
  let (r, m2) := rmt_encode_dshot_esc (fst res) d m1 in
  snd res = ESP_OK
  /\ exists evs,
       trace m2 =
       trace m ++ [EvReset (bytes_encoder e); EvReset (copy_encoder e);
                   EvEncode (bytes_encoder e) (frame_data e d)] ++ evs.
Proof.
  rewrite reset_effect. cbn [fst snd].
  destruct (rmt_encode (bytes_encoder e)
              (rmt_encoder_reset (copy_encoder e)
                 (rmt_encoder_reset (bytes_encoder e) (world m)))
              (frame_data e d)) as [w1 [n1 s1]] eqn:Hbytes.
  erewrite (encode_frame_phase (set_state e 0) d);
    [| reflexivity | cbn; exact Hbytes].
  cbv zeta. cbn [trace world bytes_encoder set_state].
  change (frame_data (set_state e 0) d) with (frame_data e d).
  destruct (has_flag s1 RMT_ENCODING_MEM_FULL).
  - split; [reflexivity |]. exists []. cbn [trace].
    rewrite <- app_assoc. reflexivity.
  - match goal with
    | |- context [send_post_delay ?e1 ?c _ ?m1] =>
        pose proof (send_post_delay_summary e1 c m1) as Hgap;
        destruct (send_post_delay e1 c RMT_ENCODING_RESET m1) as [r m2]
    end.
    destruct Hgap as (_ & _ & _ & Htrace & _).
    split; [reflexivity |]. eexists. rewrite Htrace. cbn [trace].
    rewrite <- !app_assoc. reflexivity.
Qed.

End MoreEncoderFacts.

Lemma gap_phase_buffer_full_witness :
  state (set_state bench_encoder 1) = 1
  /\ (let (r, m') :=
        rmt_encode_dshot_esc (P := bench_platform) (set_state bench_encoder 1)
          half_throttle (start 0 false) in
      ret_state r = RMT_ENCODING_MEM_FULL
      /\ encoder r = set_state bench_encoder 1
      /\ encoded_symbols r = to_uint32 0
      /\ world m' = {| free := 0; eager_full := false |}
      /\ trace m' =
         trace (start 0 false)
         ++ [EvEncode (copy_encoder (set_state bench_encoder 1))
               (delay_data (set_state bench_encoder 1))]).
Proof.
  split; [reflexivity |].
  apply (gap_phase_buffer_full (P := bench_platform)
           (set_state bench_encoder 1) half_throttle (start 0 false)
           {| free := 0; eager_full := false |} 0 RMT_ENCODING_MEM_FULL);
    reflexivity.
Defined.

Lemma gap_phase_complete_witness :
  state (set_state bench_encoder 1) = 1
  /\ (let (r, m') :=
        rmt_encode_dshot_esc (P := bench_platform) (set_state bench_encoder 1)
          half_throttle (start 5 false) in
      has_flag (ret_state r) RMT_ENCODING_COMPLETE = true
      /\ has_flag (ret_state r) RMT_ENCODING_MEM_FULL
         = has_flag RMT_ENCODING_COMPLETE RMT_ENCODING_MEM_FULL
      /\ encoder r = set_state (set_state bench_encoder 1) 0
      /\ encoded_symbols r = to_uint32 1
      /\ world m' = {| free := 4; eager_full := false |}
      /\ trace m' =
         trace (start 5 false)
         ++ [EvEncode (copy_encoder (set_state bench_encoder 1))
               (delay_data (set_state bench_encoder 1))]).
Proof.
  split; [reflexivity |].
  apply (gap_phase_complete (P := bench_platform)
           (set_state bench_encoder 1) half_throttle (start 5 false)
           {| free := 4; eager_full := false |} 1 RMT_ENCODING_COMPLETE);
    reflexivity.
Defined.

Lemma frame_phase_without_flags_witness :
  state bench_encoder = 0
  /\ (let (r, m') :=
        rmt_encode_dshot_esc (P := stalling_platform) bench_encoder
          half_throttle
          {| world := ({| free := 8; eager_full := false |}
                       : @W stalling_platform);
             trace := [] |} in
      trace m' =
        [] ++ [EvEncode (bytes_encoder bench_encoder)
                 (frame_data bench_encoder half_throttle);
               EvEncode (copy_encoder bench_encoder) (delay_data bench_encoder)]
      /\ world m' = {| free := 7; eager_full := false |}
      /\ state (encoder r) = 0
      /\ has_flag (ret_state r) RMT_ENCODING_COMPLETE
         = has_flag RMT_ENCODING_COMPLETE RMT_ENCODING_COMPLETE
      /\ has_flag (ret_state r) RMT_ENCODING_MEM_FULL
         = has_flag RMT_ENCODING_COMPLETE RMT_ENCODING_MEM_FULL
      /\ encoded_symbols r = to_uint32 (0 + 1)).
Proof.
  split; [reflexivity |].
  apply (frame_phase_without_flags (P := stalling_platform) bench_encoder
           half_throttle
           {| world := ({| free := 8; eager_full := false |}
                        : @W stalling_platform);
              trace := [] |}
           {| free := 8; eager_full := false |}
           {| free := 7; eager_full := false |}
           0 1 RMT_ENCODING_RESET RMT_ENCODING_COMPLETE);
    reflexivity.
Defined.

Lemma completion_comes_from_gap_witness :
  has_flag
    (ret_state
       (fst (rmt_encode_dshot_esc (P := bench_platform) bench_encoder
               half_throttle (start 64 false))))
    RMT_ENCODING_COMPLETE = true
  /\ exists evs w n s,
       trace (snd (rmt_encode_dshot_esc (P := bench_platform) bench_encoder
                     half_throttle (start 64 false)))
       = trace (start 64 false) ++ evs
         ++ [EvEncode (copy_encoder bench_encoder) (delay_data bench_encoder)]
       /\ rmt_encode (RmtPlatform := bench_platform)
            (copy_encoder bench_encoder) w (delay_data bench_encoder)
          = (world (snd (rmt_encode_dshot_esc (P := bench_platform)
                           bench_encoder half_throttle (start 64 false))),
             (n, s))
       /\ has_flag s RMT_ENCODING_COMPLETE = true.
Proof.
  split; [reflexivity |].
  pose proof (completion_comes_from_gap (P := bench_platform) bench_encoder
                half_throttle (start 64 false)) as H.
  destruct (rmt_encode_dshot_esc (P := bench_platform) bench_encoder
              half_throttle (start 64 false)) as [r m'] eqn:E.
  cbn [fst snd]. apply H.
  apply (f_equal (fun p => has_flag (ret_state (fst p)) RMT_ENCODING_COMPLETE)) in E.
  cbn [fst] in E. rewrite <- E. reflexivity.
Defined.

(** ** [rmt_new_dshot_esc_encoder] and [rmt_del_dshot_encoder] *)

Section MoreConstructionFacts.
Context {T : Target}.

(** X15. When both pointers are non-null and the three allocations succeed,
    the constructor returns [ESP_OK], stores the address of the new block
    through the result pointer, and the object holds the two new sub-encoder
    handles, the gap symbol of the configuration, the frame phase and the
    bidirectional flag of the configuration; the heap has grown by exactly
    the block and the two sub-encoders. *)
Theorem construction_success (env : answers)
    (cfg : Config.dshot_rmt_encoder_config_t) (old : rmt_encoder_handle_t)
    (live0 : heap) (addr : positive) :
  encoder_mem env = Some addr ->
  fst (new_bytes_encoder env) = ESP_OK ->
  fst (new_copy_encoder env) = ESP_OK ->
  rmt_new_dshot_esc_encoder env (Some cfg) (Some old) live0 =
  {| status := ESP_OK;
     ret_encoder := Some (Zpos addr);
     object :=
       Some {| bytes_encoder := Zpos (snd (new_bytes_encoder env));
               copy_encoder := Zpos (snd (new_copy_encoder env));
               dshot_delay_symbol := make_delay_symbol cfg;
               state := 0;
               bidirectional := Config.bidirectional cfg |};
     bytes_encoder_config := Some (make_bytes_encoder_config cfg);
     live :=
       [Zpos (snd (new_copy_encoder env)); Zpos (snd (new_bytes_encoder env));
        Zpos addr] ++ live0 |}.
Proof.
  intros Hmem Hbytes Hcopy.
  destruct (new_encoder_cases env (Some cfg) (Some old) live0)
    as [([Hn | Hn] & _)
       | [(_ & _ & Hm & _)
         | [(_ & _ & _ & Hb & _)
           | [(_ & _ & _ & _ & Hc & _)
             | (cfg' & addr' & Hcfg & _ & Hmem' & _ & _
                & Hst & Hcell & Hobj & Htable & Hlive)]]]];
    try congruence.
  injection Hcfg as <-. rewrite Hmem in Hmem'. injection Hmem' as <-.
  destruct (rmt_new_dshot_esc_encoder env (Some cfg) (Some old) live0).
  cbn in Hst, Hcell, Hobj, Htable, Hlive. subst. reflexivity.
Qed.

(** X16. The status a failed construction returns: [ESP_ERR_NO_MEM] when the
    block cannot be allocated, and otherwise the status of the first
    sub-encoder constructor that failed, unchanged. *)
Theorem construction_failure_status (env : answers)
    (cfg : Config.dshot_rmt_encoder_config_t) (old : rmt_encoder_handle_t)
    (live0 : heap) :
  let c := rmt_new_dshot_esc_encoder env (Some cfg) (Some old) live0 in
  (encoder_mem env = None -> status c = ESP_ERR_NO_MEM)
  /\ (encoder_mem env <> None -> fst (new_bytes_encoder env) <> ESP_OK ->
      status c = fst (new_bytes_encoder env))
  /\ (encoder_mem env <> None -> fst (new_bytes_encoder env) = ESP_OK ->
      fst (new_copy_encoder env) <> ESP_OK ->
      status c = fst (new_copy_encoder env)).
Proof.
  cbv zeta.
  destruct (new_encoder_cases env (Some cfg) (Some old) live0)
    as [([Hn | Hn] & _)
       | [(_ & _ & Hm & Hst & _)
         | [(_ & _ & Hm & Hb & Hst & _)
           | [(_ & _ & Hm & Hb & Hc & Hst & _)
             | (cfg' & addr' & _ & _ & Hm & Hb & Hc & Hst & _)]]]];
    try discriminate; rewrite Hst; repeat split; intros; congruence.
Qed.

(** X17. The bidirectional flag of the configuration reaches the object and
    nothing else: two configurations that differ in this flag only give the
    same status, the same bit-timing table and the same gap symbol.  In the
    table every bit is sent high first, then low, most significant bit
    first, in both modes. *)
Theorem bidirectional_flag_only_marks_the_object (env : answers)
    (resolution baud_rate post_delay_us : Z) (old : rmt_encoder_handle_t)
    (live0 : heap) :
  let config b :=
    {| Config.resolution := resolution; Config.baud_rate := baud_rate;
       Config.post_delay_us := post_delay_us; Config.bidirectional := b |} in
  let c b := rmt_new_dshot_esc_encoder env (Some (config b)) (Some old) live0 in
  status (c true) = status (c false)
  /\ bytes_encoder_config (c true) = bytes_encoder_config (c false)
  /\ live (c true) = live (c false)
  /\ (forall e1 e2, object (c true) = Some e1 -> object (c false) = Some e2 ->
      dshot_delay_symbol e1 = dshot_delay_symbol e2
      /\ Encoder.bidirectional e1 = true /\ Encoder.bidirectional e2 = false
      /\ e1 = set_delay_and_mode e2 (dshot_delay_symbol e2) true)
  /\ (forall b table, bytes_encoder_config (c b) = Some table ->
      level0 (bit0 table) = 1 /\ level1 (bit0 table) = 0
      /\ level0 (bit1 table) = 1 /\ level1 (bit1 table) = 0
      /\ msb_first table = true).
Proof.
  cbv zeta. unfold rmt_new_dshot_esc_encoder.
  destruct (encoder_mem env) as [addr |].
  2: { repeat split; try discriminate. }
  destruct (new_bytes_encoder env) as [rc1 h1].
  destruct (rc1 =? ESP_OK).
  2: { repeat split; try discriminate;
       cbn in H; injection H as <-; reflexivity. }
  destruct (new_copy_encoder env) as [rc2 h2].
  destruct (rc2 =? ESP_OK).
  2: { repeat split; try discriminate;
       cbn in H; injection H as <-; reflexivity. }
  cbn [status bytes_encoder_config live object].
  repeat split; try (injection H as <-; injection H0 as <-; reflexivity);
    injection H as <-; reflexivity.
Qed.

(** X18. Deleting an encoder right after a successful construction returns
    [ESP_OK] and leaves the heap exactly as it was before the construction:
    the two sub-encoders and the block are released, nothing else is. *)
Theorem construct_then_delete_restores_heap (env : answers)
    (cfg : Config.dshot_rmt_encoder_config_t) (old : rmt_encoder_handle_t)
    (live0 : heap) (addr : rmt_encoder_handle_t) (e : dshot_rmt_encoder_t) :
  let c := rmt_new_dshot_esc_encoder env (Some cfg) (Some old) live0 in
  status c = ESP_OK ->
  ret_encoder c = Some addr -> object c = Some e ->
  rmt_del_dshot_encoder addr e (live c) = (ESP_OK, live0)
  /\ In addr (live c) /\ In (bytes_encoder e) (live c)
  /\ In (copy_encoder e) (live c)
  /\ length (live c) = (3 + length live0)%nat.
Proof.
  cbv zeta. intros Hst Hret Hobj.
  split; [apply (delete_after_construction env (Some cfg) (Some old) live0
                   addr e Hret Hobj) |].
  destruct (new_encoder_cases env (Some cfg) (Some old) live0)
    as [(_ & _ & _ & _ & Hnone)
       | [(_ & _ & _ & _ & _ & _ & Hnone)
         | [(_ & _ & _ & _ & _ & _ & _ & Hnone)
           | [(_ & _ & _ & _ & _ & _ & _ & _ & Hnone)
             | (cfg' & a & _ & _ & _ & _ & _ & _ & Hcell & Hsome & _ & Hlive)]]]];
    try congruence.
  rewrite Hcell in Hret. injection Hret as <-.
  rewrite Hsome in Hobj. injection Hobj as <-.
  rewrite Hlive. cbn. auto 6.
Qed.

End MoreConstructionFacts.

Lemma construction_success_witness :
  encoder_mem plentiful = Some 4096%positive
  /\ fst (new_bytes_encoder plentiful) = ESP_OK
  /\ fst (new_copy_encoder plentiful) = ESP_OK
  /\ rmt_new_dshot_esc_encoder (T := bench_target) plentiful (Some dshot600)
       (Some NULL) [64]
     = {| status := ESP_OK;
          ret_encoder := Some 4096;
          object :=
            Some {| bytes_encoder := 4160;
                    copy_encoder := 4224;
                    dshot_delay_symbol :=
                      make_delay_symbol (T := bench_target) dshot600;
                    state := 0;
                    bidirectional := false |};
          bytes_encoder_config :=
            Some (make_bytes_encoder_config (T := bench_target) dshot600);
          live := [4224; 4160; 4096] ++ [64] |}.
Proof.
  repeat (split; [reflexivity |]).
  apply (construction_success (T := bench_target) plentiful dshot600 NULL [64]
           4096%positive); reflexivity.
Defined.

Lemma construction_failure_status_witness :
  encoder_mem copy_fails <> None
  /\ fst (new_bytes_encoder copy_fails) = ESP_OK
  /\ fst (new_copy_encoder copy_fails) <> ESP_OK
  /\ status (rmt_new_dshot_esc_encoder (T := bench_target) copy_fails
               (Some dshot600) (Some NULL) [64])
     = ESP_ERR_NO_MEM.
Proof.
  assert (Hm : encoder_mem copy_fails <> None) by discriminate.
  assert (Hb : fst (new_bytes_encoder copy_fails) = ESP_OK) by reflexivity.
  assert (Hc : fst (new_copy_encoder copy_fails) <> ESP_OK) by discriminate.
  destruct (construction_failure_status (T := bench_target) copy_fails
              dshot600 NULL [64]) as (_ & _ & Hcopy).
  repeat (split; [assumption |]). exact (Hcopy Hm Hb Hc).
Defined.

Lemma construct_then_delete_restores_heap_witness :
  let c :=
    rmt_new_dshot_esc_encoder (T := bench_target) plentiful (Some dshot600)
      (Some NULL) [64] in
  status c = ESP_OK
  /\ ret_encoder c = Some 4096 /\ object c = Some bench_encoder
  /\ rmt_del_dshot_encoder 4096 bench_encoder (live c) = (ESP_OK, [64])
  /\ In 4096 (live c) /\ In (bytes_encoder bench_encoder) (live c)
  /\ In (copy_encoder bench_encoder) (live c)
  /\ length (live c) = (3 + length [64])%nat.
Proof.
  cbv zeta.
  assert (Hs : status
                 (rmt_new_dshot_esc_encoder (T := bench_target) plentiful
                    (Some dshot600) (Some NULL) [64]) = ESP_OK)
    by (vm_compute; reflexivity).
  assert (Hr : ret_encoder
                 (rmt_new_dshot_esc_encoder (T := bench_target) plentiful
                    (Some dshot600) (Some NULL) [64]) = Some 4096)
    by (vm_compute; reflexivity).
  assert (Ho : object
                 (rmt_new_dshot_esc_encoder (T := bench_target) plentiful
                    (Some dshot600) (Some NULL) [64]) = Some bench_encoder)
    by (vm_compute; reflexivity).
  split; [exact Hs |]. split; [exact Hr |]. split; [exact Ho |].
  exact (construct_then_delete_restores_heap (T := bench_target) plentiful
           dshot600 NULL [64] 4096 bench_encoder Hs Hr Ho).
Defined.

Lemma bidirectional_flag_only_marks_the_object_witness :
  let config b :=
    {| Config.resolution := 40000000; Config.baud_rate := 600000;
       Config.post_delay_us := 50; Config.bidirectional := b |} in
  let c b :=
    rmt_new_dshot_esc_encoder (T := bench_target) plentiful (Some (config b))
      (Some NULL) [] in
  object (c false) = Some bench_encoder
  /\ object (c true)
     = Some (set_delay_and_mode bench_encoder
               (dshot_delay_symbol bench_encoder) true)
  /\ bytes_encoder_config (c true) = bytes_encoder_config (c false).
Proof.
  cbv zeta.
  destruct (bidirectional_flag_only_marks_the_object (T := bench_target)
              plentiful 40000000 600000 50 NULL [])
    as (_ & Htable & _ & Hobj & _).
  assert (Hfalse :
            object (rmt_new_dshot_esc_encoder (T := bench_target) plentiful
                      (Some {| Config.resolution := 40000000;
                               Config.baud_rate := 600000;
                               Config.post_delay_us := 50;
                               Config.bidirectional := false |})
                      (Some NULL) []) = Some bench_encoder)
    by (vm_compute; reflexivity).
  split; [exact Hfalse |]. split; [| exact Htable].
  destruct (object (rmt_new_dshot_esc_encoder (T := bench_target) plentiful
                      (Some {| Config.resolution := 40000000;
                               Config.baud_rate := 600000;
                               Config.post_delay_us := 50;
                               Config.bidirectional := true |})
                      (Some NULL) [])) as [e1 |] eqn:E1;
    [| vm_compute in E1; discriminate E1].
  destruct (Hobj e1 bench_encoder eq_refl Hfalse) as (_ & _ & _ & ->).
  reflexivity.
Defined.
